(** * DocumentSignature: the signature ledger, its client and the signature routes

    A shallow embedding of
    - the Solidity contract [DocumentSignature] (contracts/DocumentSignature.sol),
    - the backend class [DocumentSignatureService] wrapping the contract calls,
    - the route handlers [POST /:documentHash/sign] and
      [POST /:documentHash/verify] of the signatures router,
    followed by the properties of the document / signature lifecycle. *)

From stdpp Require Import base option list gmap strings fin_maps pretty.
From Stdlib Require Import NArith ZArith Ascii Lia.

Local Open Scope string_scope.
Local Open Scope N_scope.
Local Open Scope list_scope.

(** ** Machine types *)

(** [address] is a 160-bit value and [uint256] a 256-bit value.  The contract
    performs no arithmetic on either, only comparisons with [==], [>] and
    zero, so no wrap-around arises; both are carried as [N]. *)
Definition address : Type := N.
Definition uint256 : Type := N.

(** Outcome of an EVM call: a value, or a revert with the [require] message. *)
Inductive result (A : Type) : Type :=
  | Ok (a : A)
  | Revert (reason : string).
Arguments Ok {A} a.
Arguments Revert {A} reason.

Definition is_revert {A} (r : result A) : bool :=
  match r with Ok _ => false | Revert _ => true end.

(** ** The contract *)

Module DocumentSignature.

(** [struct Signature]; the field [timestamp] is named [sig_timestamp]
    because [Document] has a field of the same name. *)
Record Signature : Type := mkSignature {
  signed : bool;
  sig_timestamp : uint256;
  ipfsHash : string
}.

(** [struct Document] *)
Record Document : Type := mkDocument {
  documentHash : string;
  signers : list address;
  timestamp : uint256;
  isActive : bool;
  signatures : gmap address Signature
}.

(** Solidity mappings are total: a key never written reads as the zero value. *)
Definition zero_Signature : Signature := mkSignature false 0 "".
Definition zero_Document : Document := mkDocument "" [] 0 false ∅.

#[global] Instance Signature_inhabited : Inhabited Signature := populate zero_Signature.
#[global] Instance Document_inhabited : Inhabited Document := populate zero_Document.

(** Contract storage: [documents] and [userDocuments]. *)
Record Storage : Type := mkStorage {
  documents : gmap string Document;
  userDocuments : gmap address (list string)
}.

Definition empty_Storage : Storage := mkStorage ∅ ∅.

Inductive Event : Type :=
  | DocumentCreated (documentHash : string) (creator : address)
  | DocumentSigned (documentHash : string) (signer : address)
  | DocumentRevoked (documentHash : string) (revoker : address).

(** [msg.sender] and [block.timestamp] of the executing transaction. *)
Record Msg : Type := mkMsg {
  sender : address;
  block_timestamp : uint256
}.

(** *** Execution monad

    A contract function threads the storage and the event log and may
    revert; a revert discards both (see [transact]). *)
Definition Tx (A : Type) : Type :=
  Storage * list Event → result (A * (Storage * list Event)).

#[global] Instance Tx_ret : MRet Tx := λ A a σ, Ok (a, σ).

#[global] Instance Tx_bind : MBind Tx := λ A B k m σ,
  match m σ with
  | Ok (a, σ') => k a σ'
  | Revert reason => Revert reason
  end.

Definition require (cond : bool) (reason : string) : Tx unit :=
  λ σ, if cond then Ok (tt, σ) else Revert reason.

Definition sload : Tx Storage := λ σ, Ok (σ.1, σ).

Definition emit (e : Event) : Tx unit := λ σ, Ok (tt, (σ.1, σ.2 ++ [e])).

(** Storage reference [documents[_docHash]] read through. *)
Definition doc (st : Storage) (_docHash : string) : Document :=
  documents st !!! _docHash.

Definition sig (d : Document) (_signer : address) : Signature :=
  signatures d !!! _signer.

(** One storage write to a field of [documents[_docHash]]. *)
Definition sstore_document (_docHash : string) (f : Document → Document) : Tx unit :=
  λ σ, Ok (tt, (mkStorage (<[_docHash := f (doc σ.1 _docHash)]> (documents σ.1))
                          (userDocuments σ.1), σ.2)).

Definition set_documentHash (h : string) (d : Document) : Document :=
  mkDocument h (signers d) (timestamp d) (isActive d) (signatures d).
Definition set_signers (l : list address) (d : Document) : Document :=
  mkDocument (documentHash d) l (timestamp d) (isActive d) (signatures d).
Definition set_timestamp (t : uint256) (d : Document) : Document :=
  mkDocument (documentHash d) (signers d) t (isActive d) (signatures d).
Definition set_isActive (b : bool) (d : Document) : Document :=
  mkDocument (documentHash d) (signers d) (timestamp d) b (signatures d).
Definition set_signature (a : address) (s : Signature) (d : Document) : Document :=
  mkDocument (documentHash d) (signers d) (timestamp d) (isActive d)
             (<[a := s]> (signatures d)).

(** [userDocuments[user].push(h)] *)
Definition push_userDocument (user : address) (h : string) : Tx unit :=
  λ σ, Ok (tt, (mkStorage (documents σ.1)
                          (<[user := (userDocuments σ.1 !!! user) ++ [h]]>
                             (userDocuments σ.1)), σ.2)).

(** *** Modifiers *)

Definition documentExists {A} (_docHash : string) (body : Tx A) : Tx A :=
  st ← sload;
  require (0 <? timestamp (doc st _docHash)) "Document does not exist";;
  body.

Definition documentActive {A} (_docHash : string) (body : Tx A) : Tx A :=
  st ← sload;
  require (isActive (doc st _docHash)) "Document is not active";;
  body.

(** *** createDocument *)

Definition createDocument (msg : Msg) (_documentHash : string)
    (_requiredSigners : list address) : Tx unit :=
  st ← sload;
  require (timestamp (doc st _documentHash) =? 0) "Document already exists";;
  require (0 <? N.of_nat (length _requiredSigners)) "Must have at least one signer";;
  sstore_document _documentHash (set_documentHash _documentHash);;
  sstore_document _documentHash (set_signers _requiredSigners);;
  sstore_document _documentHash (set_timestamp (block_timestamp msg));;
  sstore_document _documentHash (set_isActive true);;
  push_userDocument (sender msg) _documentHash;;
  emit (DocumentCreated _documentHash (sender msg)).

(** *** signDocument *)

(** The authorization loop: [authorized] starts [false]; the scan goes
    through [doc.signers] from index 0 and breaks at the first entry equal
    to [msg.sender]. *)
Fixpoint authorized_scan (signers : list address) (who : address) : bool :=
  match signers with
  | [] => false
  | s :: rest => if s =? who then true else authorized_scan rest who
  end.

Definition signDocument (msg : Msg) (_documentHash : string)
    (_signatureIpfsHash : string) : Tx unit :=
  documentExists _documentHash (
  documentActive _documentHash (
    st ← sload;
    let authorized := authorized_scan (signers (doc st _documentHash)) (sender msg) in
    require authorized "Not authorized to sign this document";;
    require (negb (signed (sig (doc st _documentHash) (sender msg)))) "Already signed";;
    sstore_document _documentHash
      (set_signature (sender msg)
         (mkSignature true (block_timestamp msg) _signatureIpfsHash));;
    emit (DocumentSigned _documentHash (sender msg)))).

(** *** isFullySigned *)

(** The completion loop: returns [false] at the first signer whose
    signature is not [signed], [true] when the scan runs off the end. *)
Fixpoint fully_signed_scan (d : Document) (signers : list address) : bool :=
  match signers with
  | [] => true
  | s :: rest => if negb (signed (sig d s)) then false else fully_signed_scan d rest
  end.

Definition isFullySigned (_documentHash : string) : Tx bool :=
  documentExists _documentHash (
    st ← sload;
    mret (fully_signed_scan (doc st _documentHash) (signers (doc st _documentHash)))).

(** *** getSignature, getDocumentSigners, getUserDocuments *)

Definition getSignature (_documentHash : string) (_signer : address)
    : Tx (bool * uint256 * string) :=
  documentExists _documentHash (
    st ← sload;
    let sg := sig (doc st _documentHash) _signer in
    mret (signed sg, sig_timestamp sg, ipfsHash sg)).

Definition getDocumentSigners (_documentHash : string) : Tx (list address) :=
  documentExists _documentHash (
    st ← sload;
    mret (signers (doc st _documentHash))).

Definition getUserDocuments (_user : address) : Tx (list string) :=
  st ← sload;
  mret (userDocuments st !!! _user).

(** *** revokeDocument *)

Definition revokeDocument (msg : Msg) (_documentHash : string) : Tx unit :=
  documentExists _documentHash (
    sstore_document _documentHash (set_isActive false);;
    emit (DocumentRevoked _documentHash (sender msg))).

(** *** verifyDocumentSignature *)

Definition verifyDocumentSignature (_documentHash : string) (_signer : address)
    : Tx (bool * uint256 * bool) :=
  st ← sload;
  if timestamp (doc st _documentHash) =? 0 then
    mret (false, 0, false)
  else
    let d := doc st _documentHash in
    let sg := sig d _signer in
    mret (signed sg, sig_timestamp sg, isActive d).

(** *** Calls from outside *)

(** A state-changing call: on success the new storage and the events of
    the transaction. *)
Definition send {A} (t : Tx A) (st : Storage) : result (Storage * list Event) :=
  match t (st, []) with
  | Ok (_, (st', evs)) => Ok (st', evs)
  | Revert reason => Revert reason
  end.

(** A read-only call ([view] functions, [eth_call]). *)
Definition call {A} (t : Tx A) (st : Storage) : result A :=
  match t (st, []) with
  | Ok (a, _) => Ok a
  | Revert reason => Revert reason
  end.

(** The storage after a transaction: a reverted one leaves it as it was. *)
Definition transact {A} (t : Tx A) (st : Storage) : Storage :=
  match send t st with
  | Ok (st', _) => st'
  | Revert _ => st
  end.

(** The three state-changing entry points, as data, for traces. *)
Inductive Call : Type :=
  | CreateDocument (_documentHash : string) (_requiredSigners : list address)
  | SignDocument (_documentHash : string) (_signatureIpfsHash : string)
  | RevokeDocument (_documentHash : string).

Definition dispatch (msg : Msg) (c : Call) : Tx unit :=
  match c with
  | CreateDocument h l => createDocument msg h l
  | SignDocument h r => signDocument msg h r
  | RevokeDocument h => revokeDocument msg h
  end.

Definition step (st : Storage) (tx : Msg * Call) : Storage :=
  transact (dispatch tx.1 tx.2) st.

Definition run (st : Storage) (txs : list (Msg * Call)) : Storage :=
  foldl step st txs.

End DocumentSignature.

(** ** The ledger client (class DocumentSignatureService) *)

Module DocumentSignatureService.
Import DocumentSignature.

(** What a method of the service resolves to: [{success: true, ...}] with
    its payload, or [{success: false, error}].  The [error] of a reverted
    call is carried as the revert reason. *)
Inductive reply (A : Type) : Type :=
  | success (payload : A)
  | failure (error : string).
Arguments success {A} payload.
Arguments failure {A} error.

(** The instance built by the constructor.  [wallet] is the address of
    [new ethers.Wallet(config.privateKey, provider)]; the contract object
    is connected to it, so every transaction of the instance is sent, and
    signed, by this one address. *)
Record config : Type := mkConfig { wallet : address }.

(** [BigNumber.toNumber()]: throws when the value needs more than 53 bits. *)
Definition toNumber (n : uint256) : option N :=
  if n <? 2 ^ 53 then Some n else None.

Record SignReceipt : Type := mkSignReceipt { logs : list Event }.

(** [signDocument(documentHash, signatureMetadata)]; [now] is the
    timestamp of the block that includes the transaction. *)
Definition signDocument (cfg : config) (now : uint256) (documentHash : string)
    (signatureMetadata : string) (st : Storage) : reply SignReceipt * Storage :=
  match send (DocumentSignature.signDocument (mkMsg (wallet cfg) now)
                documentHash signatureMetadata) st with
  | Ok (st', evs) => (success (mkSignReceipt evs), st')
  | Revert reason => (failure reason, st)
  end.

Definition isDocumentFullySigned (documentHash : string) (st : Storage) : reply bool :=
  match call (isFullySigned documentHash) st with
  | Ok isComplete => success isComplete
  | Revert reason => failure reason
  end.

Record SignatureStatus : Type := mkSignatureStatus {
  status_signed : bool;
  status_timestamp : N;
  signatureMetadata : string
}.

Definition getSignatureStatus (documentHash : string) (signerAddress : address)
    (st : Storage) : reply SignatureStatus :=
  match call (getSignature documentHash signerAddress) st with
  | Ok (signed, timestamp, ipfsHash) =>
      match toNumber timestamp with
      | Some t => success (mkSignatureStatus signed t ipfsHash)
      | None => failure "overflow"
      end
  | Revert reason => failure reason
  end.

Record Verification : Type := mkVerification {
  isValid : bool;
  signedAt : N;
  documentActive : bool
}.

Definition verifySignature (documentHash : string) (signerAddress : address)
    (st : Storage) : reply Verification :=
  match call (verifyDocumentSignature documentHash signerAddress) st with
  | Ok (isValid, signedAt, documentActive) =>
      match toNumber signedAt with
      | Some t => success (mkVerification isValid t documentActive)
      | None => failure "overflow"
      end
  | Revert reason => failure reason
  end.

Definition getRequiredSigners (documentHash : string) (st : Storage)
    : reply (list address) :=
  match call (getDocumentSigners documentHash) st with
  | Ok signers => success signers
  | Revert reason => failure reason
  end.

(** [getSigningProgress]: the signer list, then [getSignatureStatus] for
    each signer in order; an entry whose read failed has no [signed]
    field and is not counted.  [percentComplete] is a floating-point
    quotient and is left out. *)
Record Progress : Type := mkProgress {
  totalSigners : nat;
  signedCount : nat;
  progress_signatures : list (address * reply SignatureStatus)
}.

Definition counts_as_signed (entry : address * reply SignatureStatus) : bool :=
  match entry.2 with
  | success status => status_signed status
  | failure _ => false
  end.

Definition getSigningProgress (documentHash : string) (st : Storage) : reply Progress :=
  match getRequiredSigners documentHash st with
  | failure e => failure e
  | success signers =>
      let signatures :=
        (λ signer, (signer, getSignatureStatus documentHash signer st)) <$> signers in
      success (mkProgress (length signers)
                          (length (filter (λ e, counts_as_signed e = true) signatures))
                          signatures)
  end.

End DocumentSignatureService.

(** ** The signature routes *)

Module SignatureRoutes.
Import DocumentSignature.
Import DocumentSignatureService.

(** What awaiting a promise gives: its value, or a thrown error. *)
Inductive awaited (A : Type) : Type :=
  | resolved (a : A)
  | rejected (message : string).
Arguments resolved {A} a.
Arguments rejected {A} message.

(** *** POST /:documentHash/sign *)

(** The metadata step of the sign handler: nothing supplied, or the
    outcome of [ipfsService.uploadSignatureMetadata]. *)
Inductive upload : Type :=
  | no_metadata
  | uploaded (hash : string)
  | upload_unsuccessful
  | upload_threw.

Definition ipfsHash_of (u : upload) : string :=
  match u with
  | uploaded hash => hash
  | _ => ""
  end.

Record SignBody : Type := mkSignBody {
  body_signer : address;
  body_ipfsHash : option string;
  isDocumentComplete : bool;
  body_signedCount : nat;
  body_totalSigners : nat
}.

Inductive sign_response : Type :=
  | sign_404
  | sign_403
  | sign_409 (signedAt : N)
  | sign_500 (details : string)
  | sign_200 (body : SignBody).

(** The handler.  [signerAddress] is [req.user.address], the identity put
    there by the authentication middleware.  Addresses are compared after
    [toLowerCase()], which on hexadecimal renderings is equality of the
    addresses. *)
Definition sign (cfg : config) (now : uint256) (documentHash : string)
    (signerAddress : address) (u : upload) (st : Storage)
    : sign_response * Storage :=
  match getRequiredSigners documentHash st with
  | failure _ => (sign_404, st)
  | success signers =>
      let isAuthorized := existsb (λ signer, signer =? signerAddress) signers in
      if negb isAuthorized then (sign_403, st)
      else
        let existingSignature := getSignatureStatus documentHash signerAddress st in
        match existingSignature with
        | success (mkSignatureStatus true timestamp _) => (sign_409 timestamp, st)
        | _ =>
            let ipfsHash := ipfsHash_of u in
            match DocumentSignatureService.signDocument cfg now documentHash ipfsHash st with
            | (failure e, st') => (sign_500 e, st')
            | (success _, st') =>
                let completionStatus := isDocumentFullySigned documentHash st' in
                let progress := getSigningProgress documentHash st' in
                (sign_200 (mkSignBody
                   signerAddress
                   (if decide (ipfsHash = "") then None else Some ipfsHash)
                   (match completionStatus with success b => b | failure _ => false end)
                   (match progress with success p => signedCount p | failure _ => 0%nat end)
                   (match progress with success p => totalSigners p | failure _ => 0%nat end)),
                 st')
            end
        end
  end.

(** *** POST /:documentHash/verify *)

Record VerificationEntry : Type := mkEntry {
  entry_signer : address;
  entry_isValid : bool;
  entry_signedAt : N;
  entry_documentActive : bool;
  entry_error : option string
}.

(** One turn of the loop over the signers, with the [try]/[catch]. *)
Definition verification_entry (signer : address)
    (verification : awaited (reply Verification)) : VerificationEntry :=
  match verification with
  | resolved (success v) =>
      mkEntry signer (isValid v) (signedAt v) (documentActive v) None
  | resolved (failure e) => mkEntry signer false 0 false (Some e)
  | rejected message => mkEntry signer false 0 false (Some message)
  end.

Record VerifyBody : Type := mkVerifyBody {
  isFullyValid : bool;
  validSignatures : nat;
  verify_totalSigners : nat;
  verificationResults : list VerificationEntry
}.

Inductive verify_response : Type :=
  | verify_404
  | verify_200 (body : VerifyBody).

(** The handler over any signer-list read and any per-signer read. *)
Definition verify_handler (signersResult : reply (list address))
    (verifySignature : address → awaited (reply Verification)) : verify_response :=
  match signersResult with
  | failure _ => verify_404
  | success signers =>
      let verificationResults :=
        (λ signer, verification_entry signer (verifySignature signer)) <$> signers in
      let validSignatures :=
        length (filter (λ r, entry_isValid r = true) verificationResults) in
      let isFullyValid := bool_decide (validSignatures = length signers) in
      verify_200 (mkVerifyBody isFullyValid validSignatures (length signers)
                               verificationResults)
  end.

(** The handler on the service of the router. *)
Definition verify (documentHash : string) (st : Storage) : verify_response :=
  verify_handler (getRequiredSigners documentHash st)
    (λ signer, resolved (verifySignature documentHash signer st)).

End SignatureRoutes.


(** ** Sample identities and ledger states *)

Module Sample.
Import DocumentSignature.

Definition deployer : address := 0xD0.
Definition alice : address := 0xA1.
Definition bob : address := 0xB0.
Definition carol : address := 0xC0.

(** The address of the key the backend is configured with. *)
Definition backend : address := 0xBE.

(** [deployer] registers "H" for [alice] and [bob] at time 1000. *)
Definition created : Storage :=
  run empty_Storage [(mkMsg deployer 1000, CreateDocument "H" [alice; bob])].

(** ... then [alice] signs at time 1001 with reference "Qm1". *)
Definition alice_signed : Storage :=
  run created [(mkMsg alice 1001, SignDocument "H" "Qm1")].

(** ... then [bob] signs at time 1002 without a reference. *)
Definition both_signed : Storage :=
  run alice_signed [(mkMsg bob 1002, SignDocument "H" "")].

(** ... then [carol], who is neither creator nor signer, revokes at 1003. *)
Definition revoked : Storage :=
  run both_signed [(mkMsg carol 1003, RevokeDocument "H")].

(** A document whose signer list also names the backend's own address. *)
Definition created_with_backend : Storage :=
  run empty_Storage [(mkMsg deployer 1000, CreateDocument "H" [alice; backend])].

End Sample.


(** ** Traces of transactions *)

Module Trace.
Import DocumentSignature.

(** The storages the contract can be in: those some sequence of
    transactions leads to from the storage at deployment. *)
Definition reachable (st : Storage) : Prop :=
  ∃ txs, st = run empty_Storage txs.

(** Transactions mined in blocks with a positive timestamp. *)
Definition on_chain (txs : list (Msg * Call)) : Prop :=
  Forall (λ tx, 0 < block_timestamp tx.1) txs.

Definition reachable_on_chain (st : Storage) : Prop :=
  ∃ txs, on_chain txs ∧ st = run empty_Storage txs.

(** [signDocument] transactions on one document, one per entry: the
    sender, the block time and the metadata reference. *)
Definition sign_txs (id : string) (order : list (address * uint256 * string))
    : list (Msg * Call) :=
  (λ x, (mkMsg x.1.1 x.1.2, SignDocument id x.2)) <$> order.

End Trace.


(** ** The ledger client: createDocument *)

Module DocumentSignatureServiceCreate.
Import DocumentSignature.
Import DocumentSignatureService.

(** Two library functions stay outside the embedding and are taken as they
    come: [hashDocument], the SHA-256 hex digest of the buffer, and ethers'
    [getAddress], which returns the checksummed address or throws. *)
Record Library : Type := mkLibrary {
  hashDocument : string → string;
  getAddress : string → reply address
}.

(** [requiredSigners.map(addr => ethers.utils.getAddress(addr))]: the
    elements are converted in order and the first throw ends the map. *)
Fixpoint validate_signers (lib : Library) (requiredSigners : list string)
    : reply (list address) :=
  match requiredSigners with
  | [] => success []
  | addr :: rest =>
      match getAddress lib addr with
      | failure e => failure e
      | success a =>
          match validate_signers lib rest with
          | failure e => failure e
          | success l => success (a :: l)
          end
      end
  end.

Record CreateReceipt : Type := mkCreateReceipt {
  receipt_documentHash : string;
  receipt_logs : list Event
}.

(** [createDocument(documentBuffer, requiredSigners)]; [now] is the
    timestamp of the block that includes the transaction. *)
Definition createDocument (lib : Library) (cfg : config) (now : uint256)
    (documentBuffer : string) (requiredSigners : list string) (st : Storage)
    : reply CreateReceipt * Storage :=
  let documentHash := hashDocument lib documentBuffer in
  match validate_signers lib requiredSigners with
  | failure e => (failure e, st)
  | success validatedSigners =>
      match send (DocumentSignature.createDocument (mkMsg (wallet cfg) now)
                    documentHash validatedSigners) st with
      | Ok (st', evs) => (success (mkCreateReceipt documentHash evs), st')
      | Revert reason => (failure reason, st)
      end
  end.

End DocumentSignatureServiceCreate.

(** ** The signature routes: notify *)

Module SignatureRoutesNotify.
Import DocumentSignature.
Import DocumentSignatureService.

Inductive notify_response : Type :=
  | notify_404
  | notify_400
  | notify_200 (pendingSigners : list address).

(** POST /:documentHash/notify.  A signer is pending when its entry of the
    progress list has no truthy [signed]; the body fields [message] and
    [method] are read and not used. *)
Definition notify (documentHash : string) (st : Storage) : notify_response :=
  match getSigningProgress documentHash st with
  | failure _ => notify_404
  | success progress =>
      let pendingSigners :=
        filter (λ sig, counts_as_signed sig = false) (progress_signatures progress) in
      if bool_decide (length pendingSigners = 0%nat) then notify_400
      else notify_200 ((λ s, s.1) <$> pendingSigners)
  end.

End SignatureRoutesNotify.

(** ** The authentication middleware *)

Module AuthMiddleware.
Import DocumentSignatureService.

(** [s.split(' ')]: the pieces of [s] between single spaces; a string with
    n spaces has n + 1 pieces, empty ones included. *)
Fixpoint split_space (s : string) : list string :=
  match s with
  | EmptyString => [EmptyString]
  | String c rest =>
      if Ascii.eqb c " "%char then EmptyString :: split_space rest
      else match split_space rest with
           | [] => [String c EmptyString]
           | piece :: pieces => String c piece :: pieces
           end
  end.

(** Whether a string holds a space. *)
Fixpoint has_space (s : string) : bool :=
  match s with
  | EmptyString => false
  | String c rest => Ascii.eqb c " "%char || has_space rest
  end.

(** The decoded token, as far as the middleware reads it. *)
Record Payload : Type := mkPayload {
  payload_address : string;
  payload_type : string;
  payload_iat : N
}.

(** [req.user] *)
Record User : Type := mkUser {
  user_address : string;
  user_type : string;
  user_iat : N
}.

Inductive auth_result : Type :=
  | auth_401 (error : string) (message : string)
  | auth_next (user : User) (token : string).

(** [authMiddleware]; [authorization] is [req.headers.authorization],
    absent or a string, and [verifyJWT] is the method of the AuthService,
    whose signature check is outside the embedding. *)
Definition authMiddleware (verifyJWT : string → reply Payload)
    (authorization : option string) : auth_result :=
  match authorization with
  | None | Some EmptyString =>
      auth_401 "Authorization header required"
               "Please provide a valid JWT token in the Authorization header"
  | Some authHeader =>
      let parts := split_space authHeader in
      match parts with
      | [scheme; token] =>
          if String.eqb scheme "Bearer" then
            match verifyJWT token with
            | failure e => auth_401 "Invalid or expired token" e
            | success payload =>
                auth_next (mkUser (payload_address payload) (payload_type payload)
                                  (payload_iat payload)) token
            end
          else auth_401 "Invalid authorization format"
                        "Authorization header must be in format: Bearer <token>"
      | _ => auth_401 "Invalid authorization format"
                      "Authorization header must be in format: Bearer <token>"
      end
  end.

(** [optionalAuthMiddleware]: the same reading of the header, but every
    failure continues with [req.user = null]. *)
Definition optionalAuthMiddleware (verifyJWT : string → reply Payload)
    (authorization : option string) : option (User * string) :=
  match authorization with
  | None | Some EmptyString => None
  | Some authHeader =>
      match split_space authHeader with
      | [scheme; token] =>
          if String.eqb scheme "Bearer" then
            match verifyJWT token with
            | failure _ => None
            | success payload =>
                Some (mkUser (payload_address payload) (payload_type payload)
                             (payload_iat payload), token)
            end
          else None
      | _ => None
      end
  end.

End AuthMiddleware.

(** ** The rate limiter *)

Module RateLimit.

Local Open Scope Z_scope.

(** The options read by the middleware; [message] only fills the response
    text.  Times are milliseconds as [Date.now()] gives them. *)
Record options : Type := mkOptions {
  windowMs : Z;
  maxRequests : Z
}.

(** The answer: 429, or [next()] with the [X-RateLimit-Remaining] header.
    [retryAfter] and [X-RateLimit-Reset] are a floating-point quotient and
    a date rendering and are left out. *)
Inductive outcome : Type :=
  | limited
  | passed (remaining : Z).

(** One request through [rateLimitMiddleware(options)]: [store] is
    [rateLimitStore], [identifier] is [req.user?.address || req.ip] and
    [now] is [Date.now()]. *)
Definition rateLimitMiddleware (opts : options) (identifier : string) (now : Z)
    (store : gmap string (list Z)) : outcome * gmap string (list Z) :=
  let windowStart := now - windowMs opts in
  let store1 :=
    match store !! identifier with
    | Some requests =>
        let validRequests := filter (λ timestamp, windowStart < timestamp) requests in
        <[identifier := validRequests]> store
    | None => store
    end in
  let currentRequests := default [] (store1 !! identifier) in
  if bool_decide (maxRequests opts ≤ Z.of_nat (length currentRequests)) then
    (limited, store1)
  else
    let currentRequests' := currentRequests ++ [now] in
    (passed (Z.max 0 (maxRequests opts - Z.of_nat (length currentRequests'))),
     <[identifier := currentRequests']> store1).

(** A sequence of requests, each an identifier and its arrival time,
    through the middleware: the final store and the requests that passed. *)
Fixpoint serve (opts : options) (store : gmap string (list Z))
    (requests : list (string * Z)) : gmap string (list Z) * list (string * Z) :=
  match requests with
  | [] => (store, [])
  | req :: rest =>
      let (out, store') := rateLimitMiddleware opts req.1 req.2 store in
      let (final, passed_later) := serve opts store' rest in
      (final, match out with
              | limited => passed_later
              | passed _ => req :: passed_later
              end)
  end.

(** Arrival times that never go back. *)
Fixpoint nondecreasing (times : list Z) : Prop :=
  match times with
  | [] => True
  | t :: rest => Forall (λ t', t ≤ t') rest ∧ nondecreasing rest
  end.

(** The requests of [identifier] among [passed] that arrived after [since]. *)
Definition passed_since (identifier : string) (since : Z)
    (passed : list (string * Z)) : list (string * Z) :=
  filter (λ req, req.1 = identifier ∧ since < req.2) passed.

(** The timestamps the store holds for an identifier. *)
Definition requests_of (store : gmap string (list Z)) (identifier : string) : list Z :=
  default [] (store !! identifier).

(** The store against the requests passed so far, seen at time [at_time]:
    no identifier holds more than [maxRequests] timestamps, and inside the
    window that ends at [at_time] the store holds exactly the arrival
    times of the identifier's passed requests. *)
Definition tracks (opts : options) (store : gmap string (list Z))
    (passed : list (string * Z)) (at_time : Z) : Prop :=
  (∀ identifier,
     Z.of_nat (length (requests_of store identifier)) ≤ maxRequests opts)
  ∧ (∀ identifier,
       filter (λ t, at_time - windowMs opts < t) (requests_of store identifier)
       = (passed_since identifier (at_time - windowMs opts) passed).*2).

End RateLimit.


(** ** The document-creation validation middleware *)

Module Validation.

(** A parsed JSON value, as far as the middleware tells them apart; a
    number keeps its literal. *)
#[local] Unset Elimination Schemes.
Inductive json : Type :=
  | JNull
  | JBool (b : bool)
  | JNumber (literal : string)
  | JString (s : string)
  | JArray (elements : list json)
  | JObject (fields : list (string * json)).
#[local] Set Elimination Schemes.

(** What the middleware takes from outside: [JSON.parse] ([None] when it
    throws), [ethers.utils.isAddress], the [length] of a JavaScript string
    (UTF-16 units) and the milliseconds of [new Date(s)] ([None] when the
    date is invalid). *)
Record Library : Type := mkLibrary {
  JSON_parse : string → option json;
  isValidAddress : string → bool;
  js_length : string → nat;
  Date_parse : string → option Z
}.

(** [toLowerCase()] on the strings it is applied to here: they have passed
    [isValidAddress] and hold letters and digits only. *)
Definition lower_ascii (c : ascii) : ascii :=
  let n := N_of_ascii c in
  if (65 <=? n) && (n <=? 90) then ascii_of_N (n + 32) else c.

Fixpoint toLowerCase (s : string) : string :=
  match s with
  | EmptyString => EmptyString
  | String c rest => String (lower_ascii c) (toLowerCase rest)
  end.

(** [parts.join(sep)] *)
Fixpoint join (sep : string) (parts : list string) : string :=
  match parts with
  | [] => ""
  | [x] => x
  | x :: rest => x +:+ sep +:+ join sep rest
  end.

(** [set.add(x)] on a [Set], kept in insertion order. *)
Definition set_add (x : string) (set : list string) : list string :=
  if bool_decide (x ∈ set) then set else set ++ [x].

(** The loop over [signersArray], from index [i] on, with the three
    accumulators; it returns [invalidAddresses] and [duplicates]. *)
Fixpoint scan_signers (lib : Library) (i : nat) (signersArray : list json)
    (invalidAddresses duplicates seen : list string) : list string * list string :=
  match signersArray with
  | [] => (invalidAddresses, duplicates)
  | JString address :: rest =>
      if negb (isValidAddress lib address) then
        scan_signers lib (S i) rest
          (invalidAddresses
             ++ ["Index " +:+ pretty i +:+ ": invalid Ethereum address format"])
          duplicates seen
      else
        let normalizedAddress := toLowerCase address in
        scan_signers lib (S i) rest invalidAddresses
          (if bool_decide (normalizedAddress ∈ seen)
           then set_add address duplicates else duplicates)
          (set_add normalizedAddress seen)
  | _ :: rest =>
      scan_signers lib (S i) rest
        (invalidAddresses ++ ["Index " +:+ pretty i +:+ ": must be a string"])
        duplicates seen
  end.

(** The errors pushed by the block that validates [signers]. *)
Definition signers_errors (lib : Library) (signers : option string) : list string :=
  match signers with
  | None | Some EmptyString => ["Signers array is required"]
  | Some signers =>
      match JSON_parse lib signers with
      | None => ["Signers must be valid JSON array"]
      | Some (JArray signersArray) =>
          if bool_decide (length signersArray = 0%nat) then
            ["At least one signer is required"]
          else if bool_decide (50 < length signersArray)%nat then
            ["Maximum 50 signers allowed"]
          else
            let (invalidAddresses, duplicates) :=
              scan_signers lib 0 signersArray [] [] [] in
            (if bool_decide (0 < length invalidAddresses)%nat
             then ["Invalid signer addresses: " +:+ join ", " invalidAddresses]
             else [])
            ++ (if bool_decide (0 < length duplicates)%nat
                then ["Duplicate signers found: " +:+ join ", " duplicates]
                else [])
      | Some _ => ["Signers must be an array"]
      end
  end.







End Validation.


(** * Properties *)

Import DocumentSignature.

(** ** What each entry point computes *)

Section EntryPoints.
Variables (st : Storage) (msg : Msg) (h : string).

Lemma send_createDocument (l : list address) :
  send (createDocument msg h l) st =
    if negb (timestamp (doc st h) =? 0) then Revert "Document already exists"
    else if negb (0 <? N.of_nat (length l)) then Revert "Must have at least one signer"
    else Ok (mkStorage
               (<[h := mkDocument h l (block_timestamp msg) true (signatures (doc st h))]>
                  (documents st))
               (<[sender msg := (userDocuments st !!! sender msg) ++ [h]]>
                  (userDocuments st)),
             [DocumentCreated h (sender msg)]).
Proof.
  unfold send, createDocument, mbind, Tx_bind, sload, require, sstore_document,
    push_userDocument, emit, doc; simpl.
  destruct (timestamp (documents st !!! h) =? 0); simpl; [|done].
  destruct (0 <? N.of_nat (length l)); simpl; [|done].
  by rewrite !lookup_total_insert_eq, !insert_insert_eq.
Qed.

Lemma send_signDocument (r : string) :
  send (signDocument msg h r) st =
    if negb (0 <? timestamp (doc st h)) then Revert "Document does not exist"
    else if negb (isActive (doc st h)) then Revert "Document is not active"
    else if negb (authorized_scan (signers (doc st h)) (sender msg))
      then Revert "Not authorized to sign this document"
    else if signed (sig (doc st h) (sender msg)) then Revert "Already signed"
    else Ok (mkStorage
               (<[h := set_signature (sender msg)
                         (mkSignature true (block_timestamp msg) r) (doc st h)]>
                  (documents st))
               (userDocuments st),
             [DocumentSigned h (sender msg)]).
Proof.
  unfold send, signDocument, documentExists, documentActive, mbind, Tx_bind, sload,
    require, sstore_document, emit; simpl.
  destruct (0 <? timestamp (doc st h)); simpl; [|done].
  destruct (isActive (doc st h)); simpl; [|done].
  destruct (authorized_scan _ _); simpl; [|done].
  by destruct (signed _).
Qed.

Lemma send_revokeDocument :
  send (revokeDocument msg h) st =
    if negb (0 <? timestamp (doc st h)) then Revert "Document does not exist"
    else Ok (mkStorage (<[h := set_isActive false (doc st h)]> (documents st))
                       (userDocuments st),
             [DocumentRevoked h (sender msg)]).
Proof.
  unfold send, revokeDocument, documentExists, mbind, Tx_bind, sload, require,
    sstore_document, emit; simpl.
  by destruct (0 <? timestamp (doc st h)).
Qed.

Lemma call_isFullySigned :
  call (isFullySigned h) st =
    if negb (0 <? timestamp (doc st h)) then Revert "Document does not exist"
    else Ok (fully_signed_scan (doc st h) (signers (doc st h))).
Proof.
  unfold call, isFullySigned, documentExists, mbind, mret, Tx_bind, Tx_ret, sload,
    require; simpl.
  by destruct (0 <? timestamp (doc st h)).
Qed.

Lemma call_getSignature (a : address) :
  call (getSignature h a) st =
    if negb (0 <? timestamp (doc st h)) then Revert "Document does not exist"
    else Ok (signed (sig (doc st h) a), sig_timestamp (sig (doc st h) a),
             ipfsHash (sig (doc st h) a)).
Proof.
  unfold call, getSignature, documentExists, mbind, mret, Tx_bind, Tx_ret, sload,
    require; simpl.
  by destruct (0 <? timestamp (doc st h)).
Qed.

Lemma call_getDocumentSigners :
  call (getDocumentSigners h) st =
    if negb (0 <? timestamp (doc st h)) then Revert "Document does not exist"
    else Ok (signers (doc st h)).
Proof.
  unfold call, getDocumentSigners, documentExists, mbind, mret, Tx_bind, Tx_ret,
    sload, require; simpl.
  by destruct (0 <? timestamp (doc st h)).
Qed.

Lemma call_getUserDocuments (user : address) :
  call (getUserDocuments user) st = Ok (userDocuments st !!! user).
Proof. reflexivity. Qed.

Lemma call_verifyDocumentSignature (a : address) :
  call (verifyDocumentSignature h a) st =
    Ok (if timestamp (doc st h) =? 0 then (false, 0, false)
        else (signed (sig (doc st h) a), sig_timestamp (sig (doc st h) a),
              isActive (doc st h))).
Proof.
  unfold call, verifyDocumentSignature, mbind, mret, Tx_bind, Tx_ret, sload; simpl.
  by destruct (timestamp (doc st h) =? 0).
Qed.

End EntryPoints.

(** A transaction that reverts leaves the storage as it was. *)
Lemma transact_revert {A} (t : Tx A) (st : Storage) :
  is_revert (send t st) = true → transact t st = st.
Proof. unfold transact. by destruct (send t st) as [[]|]. Qed.

Lemma transact_ok {A} (t : Tx A) (st st' : Storage) (evs : list Event) :
  send t st = Ok (st', evs) → transact t st = st'.
Proof. unfold transact. by intros ->. Qed.

(** ** The two scans *)

Lemma authorized_scan_elem_of (l : list address) (who : address) :
  authorized_scan l who = true ↔ who ∈ l.
Proof.
  induction l as [|s rest IH]; simpl.
  - split; [done | by intros ?%elem_of_nil].
  - rewrite elem_of_cons. destruct (N.eqb_spec s who) as [->|Hne].
    + tauto.
    + rewrite IH. split; [tauto | intros [?|?]; congruence].
Qed.

Lemma fully_signed_scan_all (d : Document) (l : list address) :
  fully_signed_scan d l = true ↔ ∀ s, s ∈ l → signed (sig d s) = true.
Proof.
  induction l as [|s rest IH]; simpl.
  - split; [by intros _ ? ?%elem_of_nil | done].
  - destruct (signed (sig d s)) eqn:Hs; simpl.
    + rewrite IH. split.
      * intros H x [->|?]%elem_of_cons; auto.
      * intros H x ?. apply H. by apply list_elem_of_further.
    + split; [done|]. intros H. rewrite <- Hs. apply H, list_elem_of_here.
Qed.

(** Reading a document back after a write to [documents]. *)
Lemma doc_insert_eq (m : gmap string Document) (u : gmap address (list string))
    (h : string) (d : Document) :
  doc (mkStorage (<[h := d]> m) u) h = d.
Proof. unfold doc; simpl. apply lookup_total_insert_eq. Qed.

Lemma doc_insert_ne (m : gmap string Document) (u : gmap address (list string))
    (h h' : string) (d : Document) :
  h ≠ h' → doc (mkStorage (<[h := d]> m) u) h' = doc (mkStorage m u) h'.
Proof. intros. unfold doc; simpl. by apply lookup_total_insert_ne. Qed.

Lemma sig_set_signature_eq (a : address) (s : Signature) (d : Document) :
  sig (set_signature a s d) a = s.
Proof. unfold sig; simpl. apply lookup_total_insert_eq. Qed.

Lemma sig_set_signature_ne (a b : address) (s : Signature) (d : Document) :
  a ≠ b → sig (set_signature a s d) b = sig d b.
Proof. intros. unfold sig; simpl. by apply lookup_total_insert_ne. Qed.

(** ** One transaction, seen from one document *)

(** What a transaction can do to [documents[id]]: nothing, create it, add
    the sender's signature, or deactivate it. *)
Inductive doc_step (id : string) (d : Document) (tx : Msg * Call) : Document → Prop :=
  | doc_untouched :
      doc_step id d tx d
  | doc_created l :
      tx.2 = CreateDocument id l →
      timestamp d = 0 →
      l ≠ [] →
      doc_step id d tx (mkDocument id l (block_timestamp tx.1) true (signatures d))
  | doc_signed r :
      tx.2 = SignDocument id r →
      0 < timestamp d →
      isActive d = true →
      sender tx.1 ∈ signers d →
      signed (sig d (sender tx.1)) = false →
      doc_step id d tx
        (set_signature (sender tx.1) (mkSignature true (block_timestamp tx.1) r) d)
  | doc_revoked :
      tx.2 = RevokeDocument id →
      0 < timestamp d →
      doc_step id d tx (set_isActive false d).

Lemma step_doc_step (st : Storage) (tx : Msg * Call) (id : string) :
  doc_step id (doc st id) tx (doc (step st tx) id).
Proof.
  destruct tx as [msg [h l|h r|h]]; unfold step, transact; simpl.
  - rewrite send_createDocument.
    destruct (N.eqb_spec (timestamp (doc st h)) 0) as [Hz|]; simpl;
      [|apply doc_untouched].
    destruct l as [|a l]; [apply doc_untouched|]. simpl.
    destruct (decide (h = id)) as [->|Hne].
    + rewrite doc_insert_eq. by apply (doc_created _ _ (msg, _) (a :: l)).
    + rewrite doc_insert_ne by done. destruct st; apply doc_untouched.
  - rewrite send_signDocument.
    destruct (N.ltb_spec 0 (timestamp (doc st h))); simpl; [|apply doc_untouched].
    destruct (isActive (doc st h)) eqn:Ha; simpl; [|apply doc_untouched].
    destruct (authorized_scan _ _) eqn:Hs; simpl; [|apply doc_untouched].
    destruct (signed _) eqn:Hg; simpl; [apply doc_untouched|].
    destruct (decide (h = id)) as [->|Hne].
    + rewrite doc_insert_eq.
      apply (doc_signed _ _ (msg, _) r); try done.
      by apply authorized_scan_elem_of.
    + rewrite doc_insert_ne by done. destruct st; apply doc_untouched.
  - rewrite send_revokeDocument.
    destruct (N.ltb_spec 0 (timestamp (doc st h))); simpl; [|apply doc_untouched].
    destruct (decide (h = id)) as [->|Hne].
    + rewrite doc_insert_eq. by apply (doc_revoked _ _ (msg, _)).
    + rewrite doc_insert_ne by done. destruct st; apply doc_untouched.
Qed.

Lemma run_cons (st : Storage) (tx : Msg * Call) (txs : list (Msg * Call)) :
  run st (tx :: txs) = run (step st tx) txs.
Proof. reflexivity. Qed.

Lemma run_app (st : Storage) (txs1 txs2 : list (Msg * Call)) :
  run st (txs1 ++ txs2) = run (run st txs1) txs2.
Proof. apply foldl_app. Qed.

(** An existing document keeps its creation time and its signer list. *)
Lemma step_existing (st : Storage) (tx : Msg * Call) (id : string) :
  0 < timestamp (doc st id) →
  timestamp (doc (step st tx) id) = timestamp (doc st id)
  ∧ signers (doc (step st tx) id) = signers (doc st id)
  ∧ documentHash (doc (step st tx) id) = documentHash (doc st id).
Proof.
  intros Hex. destruct (step_doc_step st tx id); simpl; auto. lia.
Qed.

Lemma run_existing (txs : list (Msg * Call)) (st : Storage) (id : string) :
  0 < timestamp (doc st id) →
  timestamp (doc (run st txs) id) = timestamp (doc st id)
  ∧ signers (doc (run st txs) id) = signers (doc st id)
  ∧ documentHash (doc (run st txs) id) = documentHash (doc st id).
Proof.
  revert st. induction txs as [|tx txs IH]; intros st Hex; [done|].
  rewrite run_cons. destruct (step_existing st tx id Hex) as (Ht & Hs & Hh).
  rewrite <- Ht, <- Hs, <- Hh. apply IH. by rewrite Ht.
Qed.

(** A deactivated document stays as it is. *)
Lemma step_revoked (st : Storage) (tx : Msg * Call) (id : string) :
  0 < timestamp (doc st id) →
  isActive (doc st id) = false →
  isActive (doc (step st tx) id) = false
  ∧ signatures (doc (step st tx) id) = signatures (doc st id).
Proof.
  intros Hex Hin. destruct (step_doc_step st tx id); simpl; auto; [lia|congruence].
Qed.

Lemma run_revoked (txs : list (Msg * Call)) (st : Storage) (id : string) :
  0 < timestamp (doc st id) →
  isActive (doc st id) = false →
  0 < timestamp (doc (run st txs) id)
  ∧ isActive (doc (run st txs) id) = false
  ∧ signatures (doc (run st txs) id) = signatures (doc st id)
  ∧ signers (doc (run st txs) id) = signers (doc st id).
Proof.
  revert st. induction txs as [|tx txs IH]; intros st Hex Hin; [done|].
  rewrite run_cons.
  destruct (step_existing st tx id Hex) as (Ht & Hs & _).
  destruct (step_revoked st tx id Hex Hin) as (Ha & Hg).
  rewrite <- Hg, <- Hs. apply IH; [by rewrite Ht | done].
Qed.

(** ** signDocument *)

(** The failure condition of [signDocument], as a boolean on the storage. *)
Lemma signDocument_revert_iff (st : Storage) (msg : Msg) (id r : string) :
  is_revert (send (signDocument msg id r) st) = true ↔
    timestamp (doc st id) = 0
    ∨ isActive (doc st id) = false
    ∨ sender msg ∉ signers (doc st id)
    ∨ signed (sig (doc st id) (sender msg)) = true.
Proof.
  rewrite send_signDocument, <- authorized_scan_elem_of.
  destruct (N.ltb_spec 0 (timestamp (doc st id))); simpl; [|split; [left; lia|done]].
  destruct (isActive (doc st id)); simpl; [|by split; auto].
  destruct (authorized_scan _ _); simpl; [|by split; auto].
  destruct (signed _); simpl; [by split; auto|].
  split; [done|]. intros [?|[?|[?|?]]]; try done. lia.
Qed.

(** C1: [signDocument(id, metadataRef)] by caller [c] fails exactly when the
    document does not exist, is not active, [c] is not in its signers
    sequence (the linear scan decides membership) or [c] has already
    signed.  On success the (id, c) signature becomes signed, with the block
    time and the given reference, and nothing else changes; on failure the
    storage is what it was. *)
Theorem signDocument_fails_iff (st : Storage) (msg : Msg) (id metadataRef : string) :
  (authorized_scan (signers (doc st id)) (sender msg) = true
     ↔ sender msg ∈ signers (doc st id))
  ∧ (is_revert (send (signDocument msg id metadataRef) st) = true ↔
       timestamp (doc st id) = 0
       ∨ isActive (doc st id) = false
       ∨ sender msg ∉ signers (doc st id)
       ∨ signed (sig (doc st id) (sender msg)) = true)
  ∧ (is_revert (send (signDocument msg id metadataRef) st) = true →
       transact (signDocument msg id metadataRef) st = st)
  ∧ (is_revert (send (signDocument msg id metadataRef) st) = false →
       ∃ st', send (signDocument msg id metadataRef) st
                = Ok (st', [DocumentSigned id (sender msg)])
         ∧ transact (signDocument msg id metadataRef) st = st'
         ∧ sig (doc st' id) (sender msg)
             = mkSignature true (block_timestamp msg) metadataRef
         ∧ (∀ a, a ≠ sender msg → sig (doc st' id) a = sig (doc st id) a)
         ∧ signers (doc st' id) = signers (doc st id)
         ∧ timestamp (doc st' id) = timestamp (doc st id)
         ∧ isActive (doc st' id) = isActive (doc st id)
         ∧ documentHash (doc st' id) = documentHash (doc st id)
         ∧ (∀ id', id' ≠ id → doc st' id' = doc st id')
         ∧ userDocuments st' = userDocuments st).
Proof.
  split; [apply authorized_scan_elem_of|].
  split; [apply signDocument_revert_iff|].
  split; [apply transact_revert|].
  unfold transact. rewrite send_signDocument.
  destruct (0 <? timestamp (doc st id)); simpl; [|done].
  destruct (isActive (doc st id)) eqn:Hactive; simpl; [|done].
  destruct (authorized_scan _ _); simpl; [|done].
  destruct (signed _); simpl; [done|]. intros _.
  eexists. split; [reflexivity|]. split; [reflexivity|].
  rewrite doc_insert_eq. split; [apply sig_set_signature_eq|].
  split; [intros a Ha; by apply sig_set_signature_ne|].
  do 4 (split; [done|]).
  split; [|reflexivity].
  intros id' Hne. rewrite doc_insert_ne by done. by destruct st.
Qed.

(** ** createDocument *)

Lemma createDocument_revert_iff (st : Storage) (msg : Msg) (id : string)
    (l : list address) :
  is_revert (send (createDocument msg id l) st) = true ↔
    0 < timestamp (doc st id) ∨ l = [].
Proof.
  rewrite send_createDocument.
  destruct (N.eqb_spec (timestamp (doc st id)) 0) as [Hz|Hnz]; simpl;
    [|split; [left; lia|done]].
  destruct l as [|a l]; simpl; [by split; auto|].
  split; [done|]. intros [?|?]; [lia|done].
Qed.

(** Once a document exists, [createDocument] on its identifier reverts,
    whatever happens in between. *)
Lemma createDocument_existing (st : Storage) (id : string)
    (txs : list (Msg * Call)) (msg : Msg) (l : list address) :
  0 < timestamp (doc st id) →
  send (createDocument msg id l) (run st txs) = Revert "Document already exists".
Proof.
  intros Hex. destruct (run_existing txs st id Hex) as (Ht & _).
  rewrite send_createDocument.
  destruct (N.eqb_spec (timestamp (doc (run st txs) id)) 0); [lia|done].
Qed.

(** A successful [createDocument] stamps the document with the block time. *)
Lemma createDocument_timestamp (st : Storage) (msg : Msg) (id : string)
    (l : list address) :
  is_revert (send (createDocument msg id l) st) = false →
  timestamp (doc (step st (msg, CreateDocument id l)) id) = block_timestamp msg.
Proof.
  unfold step, transact; simpl. rewrite send_createDocument.
  destruct (timestamp (doc st id) =? 0); simpl; [|done].
  destruct (0 <? N.of_nat (length l)); simpl; [|done].
  intros _. by rewrite doc_insert_eq.
Qed.

(** C2: [createDocument(id, signers)] fails when [id] already exists or
    [signers] is empty (and only then), leaving the storage as it was.
    Otherwise it stores the document with the given signers, active, with
    the block time as creation time, and appends [id] to the caller's list
    read by [getUserDocuments]; from then on every [createDocument] with the
    same [id] fails, whatever transactions come in between.  Block times
    are positive. *)
Theorem createDocument_once (st : Storage) (msg : Msg) (id : string)
    (l : list address) :
  0 < block_timestamp msg →
  (is_revert (send (createDocument msg id l) st) = true ↔
     0 < timestamp (doc st id) ∨ l = [])
  ∧ (is_revert (send (createDocument msg id l) st) = true →
       transact (createDocument msg id l) st = st)
  ∧ (is_revert (send (createDocument msg id l) st) = false →
       ∃ st', send (createDocument msg id l) st
                = Ok (st', [DocumentCreated id (sender msg)])
         ∧ transact (createDocument msg id l) st = st'
         ∧ documentHash (doc st' id) = id
         ∧ signers (doc st' id) = l
         ∧ isActive (doc st' id) = true
         ∧ timestamp (doc st' id) = block_timestamp msg
         ∧ call (getUserDocuments (sender msg)) st'
             = Ok ((userDocuments st !!! sender msg) ++ [id])
         ∧ (∀ u, u ≠ sender msg →
              call (getUserDocuments u) st' = call (getUserDocuments u) st)
         ∧ (∀ id', id' ≠ id → doc st' id' = doc st id')
         ∧ (∀ txs msg' l',
              send (createDocument msg' id l') (run st' txs)
                = Revert "Document already exists")).
Proof.
  intros Hnow.
  split; [apply createDocument_revert_iff|].
  split; [apply transact_revert|].
  unfold transact. rewrite send_createDocument.
  destruct (timestamp (doc st id) =? 0); simpl; [|done].
  destruct (0 <? N.of_nat (length l)); simpl; [|done]. intros _.
  eexists. split; [reflexivity|]. split; [reflexivity|].
  rewrite !call_getUserDocuments, doc_insert_eq; simpl.
  do 4 (split; [done|]).
  split; [by rewrite lookup_total_insert_eq|].
  split; [intros u Hu; rewrite !call_getUserDocuments; simpl;
          by rewrite lookup_total_insert_ne|].
  split; [intros id' Hne; rewrite doc_insert_ne by done; by destruct st|].
  intros txs msg' l'. apply createDocument_existing.
  by rewrite doc_insert_eq.
Qed.

Lemma createDocument_once_witness :
  send (createDocument (mkMsg Sample.carol 2000) "H" [Sample.carol]) Sample.created
    = Revert "Document already exists".
Proof.
  assert (Hnow : 0 < block_timestamp (mkMsg Sample.deployer 1000)) by (simpl; lia).
  destruct (createDocument_once empty_Storage (mkMsg Sample.deployer 1000) "H"
              [Sample.alice; Sample.bob] Hnow) as (_ & _ & Hok).
  destruct (Hok eq_refl) as (st' & _ & Hst' & _ & _ & _ & _ & _ & _ & _ & Hagain).
  specialize (Hagain [] (mkMsg Sample.carol 2000) [Sample.carol]).
  rewrite <- Hst' in Hagain. exact Hagain.
Defined.

(** C4: for a declared signer of an existing, active document who has not
    signed yet, the first [signDocument] succeeds and a second one by the
    same signer reverts with "Already signed"; the storage after both
    calls is the storage after the first alone. *)
Theorem signDocument_twice (st : Storage) (msg1 msg2 : Msg)
    (id ref1 ref2 : string) :
  0 < timestamp (doc st id) →
  isActive (doc st id) = true →
  sender msg1 ∈ signers (doc st id) →
  signed (sig (doc st id) (sender msg1)) = false →
  sender msg2 = sender msg1 →
  ∃ st1,
    send (signDocument msg1 id ref1) st = Ok (st1, [DocumentSigned id (sender msg1)])
    ∧ send (signDocument msg2 id ref2) st1 = Revert "Already signed"
    ∧ run st [(msg1, SignDocument id ref1); (msg2, SignDocument id ref2)]
        = run st [(msg1, SignDocument id ref1)].
Proof.
  intros Hex Hact Hin Hnot Hsame.
  assert (Hfirst : send (signDocument msg1 id ref1) st
            = Ok (mkStorage
                    (<[id := set_signature (sender msg1)
                               (mkSignature true (block_timestamp msg1) ref1)
                               (doc st id)]> (documents st))
                    (userDocuments st),
                  [DocumentSigned id (sender msg1)])).
  { rewrite send_signDocument.
    apply N.ltb_lt in Hex. apply authorized_scan_elem_of in Hin.
    by rewrite Hex, Hact, Hin, Hnot. }
  eexists. split; [exact Hfirst|].
  assert (Hsecond : send (signDocument msg2 id ref2)
            (mkStorage
               (<[id := set_signature (sender msg1)
                          (mkSignature true (block_timestamp msg1) ref1)
                          (doc st id)]> (documents st))
               (userDocuments st)) = Revert "Already signed").
  { rewrite send_signDocument, doc_insert_eq, Hsame, sig_set_signature_eq; simpl.
    apply N.ltb_lt in Hex. apply authorized_scan_elem_of in Hin.
    by rewrite Hex, Hact, Hin. }
  split; [exact Hsecond|].
  change (step (step st (msg1, SignDocument id ref1)) (msg2, SignDocument id ref2)
            = step st (msg1, SignDocument id ref1)).
  unfold step; simpl. rewrite (transact_ok _ _ _ _ Hfirst).
  apply transact_revert. by rewrite Hsecond.
Qed.

Lemma signDocument_twice_witness :
  run Sample.created
      [(mkMsg Sample.alice 1001, SignDocument "H" "Qm1");
       (mkMsg Sample.alice 1005, SignDocument "H" "Qm2")]
    = Sample.alice_signed.
Proof.
  destruct (signDocument_twice Sample.created (mkMsg Sample.alice 1001)
              (mkMsg Sample.alice 1005) "H" "Qm1" "Qm2")
    as (st1 & _ & _ & Hsame).
  - vm_compute. reflexivity.
  - reflexivity.
  - apply list_elem_of_here.
  - reflexivity.
  - reflexivity.
  - exact Hsame.
Defined.

(** ** isFullySigned *)

(** C5: for an existing document [isFullySigned(id)] returns [true] exactly
    when every entry of its signers sequence has a signature with
    [signed = true] (as read by [getSignature]), and [false] otherwise; it
    fails when [id] does not exist. *)
Theorem isFullySigned_iff_all_signed (st : Storage) (id : string) :
  (timestamp (doc st id) = 0 →
     call (isFullySigned id) st = Revert "Document does not exist")
  ∧ (0 < timestamp (doc st id) →
       ∃ b, call (isFullySigned id) st = Ok b
         ∧ (b = true ↔
              ∀ s, s ∈ signers (doc st id) → signed (sig (doc st id) s) = true)
         ∧ (b = true ↔
              ∀ s, s ∈ signers (doc st id) →
                ∃ t r, call (getSignature id s) st = Ok (true, t, r))).
Proof.
  rewrite call_isFullySigned. split.
  - by intros ->.
  - intros Hex. pose proof Hex as Hlt%N.ltb_lt. rewrite Hlt; simpl.
    eexists. split; [reflexivity|]. split; [apply fully_signed_scan_all|].
    rewrite fully_signed_scan_all. split; intros H s Hs.
    + rewrite call_getSignature, Hlt; simpl. rewrite (H s Hs). eauto.
    + destruct (H s Hs) as (t & r & Hg).
      rewrite call_getSignature, Hlt in Hg; simpl in Hg. congruence.
Qed.

(** ** verifyDocumentSignature *)

(** C7: [verifyDocumentSignature(id, signer)] never fails.  For an [id]
    that does not exist it returns the triple [(false, 0, false)]; for an
    existing document it returns the signer's [signed] flag, the signer's
    signing time and the document's [isActive] flag. *)
Theorem verifyDocumentSignature_never_fails (st : Storage) (id : string)
    (signer : address) :
  is_revert (call (verifyDocumentSignature id signer) st) = false
  ∧ (timestamp (doc st id) = 0 →
       call (verifyDocumentSignature id signer) st = Ok (false, 0, false))
  ∧ (0 < timestamp (doc st id) →
       call (verifyDocumentSignature id signer) st
         = Ok (signed (sig (doc st id) signer),
               sig_timestamp (sig (doc st id) signer),
               isActive (doc st id))).
Proof.
  rewrite call_verifyDocumentSignature. split; [done|]. split.
  - by intros ->.
  - intros Hex. destruct (N.eqb_spec (timestamp (doc st id)) 0); [lia|done].
Qed.

(** ** revokeDocument *)

Lemma revokeDocument_revert_iff (st : Storage) (msg : Msg) (id : string) :
  is_revert (send (revokeDocument msg id) st) = true ↔ timestamp (doc st id) = 0.
Proof.
  rewrite send_revokeDocument.
  destruct (N.ltb_spec 0 (timestamp (doc st id))); simpl; split; try done; lia.
Qed.

(** On a deactivated document [signDocument] reverts at the second modifier. *)
Lemma signDocument_inactive (st : Storage) (msg : Msg) (id r : string) :
  0 < timestamp (doc st id) →
  isActive (doc st id) = false →
  send (signDocument msg id r) st = Revert "Document is not active".
Proof.
  intros Hex%N.ltb_lt Hin. by rewrite send_signDocument, Hex, Hin.
Qed.

(** C6: [revokeDocument(id)] fails exactly when [id] does not exist.  For an
    existing document and any caller it sets [isActive] to [false] and
    changes nothing else; from then on, whatever transactions follow, every
    [signDocument] on [id] reverts with "Document is not active", and the
    signature records and the signers sequence read as before. *)
Theorem revokeDocument_any_caller (st : Storage) (msg : Msg) (id : string) :
  (is_revert (send (revokeDocument msg id) st) = true ↔ timestamp (doc st id) = 0)
  ∧ (0 < timestamp (doc st id) →
       ∃ st', send (revokeDocument msg id) st
                = Ok (st', [DocumentRevoked id (sender msg)])
         ∧ transact (revokeDocument msg id) st = st'
         ∧ isActive (doc st' id) = false
         ∧ signers (doc st' id) = signers (doc st id)
         ∧ signatures (doc st' id) = signatures (doc st id)
         ∧ timestamp (doc st' id) = timestamp (doc st id)
         ∧ documentHash (doc st' id) = documentHash (doc st id)
         ∧ (∀ id', id' ≠ id → doc st' id' = doc st id')
         ∧ userDocuments st' = userDocuments st
         ∧ ∀ txs,
             (∀ msg' r, send (signDocument msg' id r) (run st' txs)
                          = Revert "Document is not active")
             ∧ (∀ s, call (getSignature id s) (run st' txs)
                       = call (getSignature id s) st)
             ∧ call (getDocumentSigners id) (run st' txs)
                 = call (getDocumentSigners id) st).
Proof.
  split; [apply revokeDocument_revert_iff|].
  intros Hex. unfold transact. rewrite send_revokeDocument.
  pose proof Hex as Hlt%N.ltb_lt. rewrite Hlt; simpl.
  eexists. split; [reflexivity|]. split; [reflexivity|].
  set (st' := mkStorage _ _).
  assert (Hd : doc st' id = set_isActive false (doc st id)) by apply doc_insert_eq.
  rewrite Hd; simpl. do 5 (split; [done|]).
  split; [intros id' Hne; unfold st'; rewrite doc_insert_ne by done; by destruct st|].
  split; [done|]. intros txs.
  assert (Hex' : 0 < timestamp (doc st' id)) by by rewrite Hd.
  assert (Hin' : isActive (doc st' id) = false) by by rewrite Hd.
  destruct (run_revoked txs st' id Hex' Hin') as (Hex2 & Hin2 & Hsigs & Hsigners).
  split; [intros msg' r; by apply signDocument_inactive|].
  pose proof Hex2 as Hlt2%N.ltb_lt.
  split.
  - intros s. rewrite !call_getSignature, Hlt, Hlt2; simpl.
    unfold sig. by rewrite Hsigs, Hd.
  - rewrite !call_getDocumentSigners, Hlt, Hlt2; simpl. by rewrite Hsigners, Hd.
Qed.

(** [carol], neither creator nor signer, revokes "H"; both signatures stay. *)
Example revoked_by_stranger :
  isActive (doc Sample.revoked "H") = false
  ∧ call (getSignature "H" Sample.alice) Sample.revoked = Ok (true, 1001, "Qm1")
  ∧ call (getSignature "H" Sample.bob) Sample.revoked = Ok (true, 1002, "")
  ∧ send (signDocument (mkMsg Sample.alice 1004) "H" "") Sample.revoked
      = Revert "Document is not active".
Proof. vm_compute. done. Qed.

(** ** The active flag over traces *)

(** Once the flag has gone from [true] to [false] the document is a revoked
    one: it exists and is inactive. *)
Lemma run_deactivated (txs : list (Msg * Call)) (st : Storage) (id : string) :
  isActive (doc st id) = true →
  isActive (doc (run st txs) id) = false →
  0 < timestamp (doc (run st txs) id).
Proof.
  revert st. induction txs as [|tx txs IH]; intros st Hon Hoff.
  - simpl in Hoff. congruence.
  - rewrite run_cons in *.
    destruct (isActive (doc (step st tx) id)) eqn:Hnext; [by apply IH|].
    assert (Hex : 0 < timestamp (doc (step st tx) id)).
    { pose proof (step_doc_step st tx id) as Hstep.
      inversion Hstep as [Heq|l ? ? ? Heq|r ? ? ? ? ? Heq|? ? Heq];
        rewrite <- Heq in Hnext; simpl in *; congruence || done. }
    by destruct (run_revoked txs (step st tx) id Hex Hnext) as (? & _).
Qed.

(** C10: the flag [isActive] of a document is written by two operations
    only: a successful [createDocument] of that identifier sets it to
    [true], on a document that did not exist, and a successful
    [revokeDocument] sets it to [false].  Once it has gone from [true] to
    [false] it is [false] after every further sequence of operations, and a
    document created at a positive block time is never created again. *)
Theorem active_never_set_back (st : Storage) (id : string) :
  (∀ tx, isActive (doc (step st tx) id) ≠ isActive (doc st id) →
     (∃ l, tx.2 = CreateDocument id l
           ∧ timestamp (doc st id) = 0
           ∧ is_revert (send (createDocument tx.1 id l) st) = false
           ∧ isActive (doc (step st tx) id) = true)
     ∨ (tx.2 = RevokeDocument id
        ∧ 0 < timestamp (doc st id)
        ∧ isActive (doc (step st tx) id) = false))
  ∧ (∀ txs1 txs2,
       isActive (doc st id) = true →
       isActive (doc (run st txs1) id) = false →
       isActive (doc (run st (txs1 ++ txs2)) id) = false)
  ∧ (∀ txs,
       0 < timestamp (doc st id) →
       isActive (doc st id) = false →
       isActive (doc (run st txs) id) = false)
  ∧ (∀ msg l txs msg' l',
       0 < block_timestamp msg →
       is_revert (send (createDocument msg id l) st) = false →
       send (createDocument msg' id l')
            (run (step st (msg, CreateDocument id l)) txs)
         = Revert "Document already exists").
Proof.
  repeat split.
  - intros tx Hchg. pose proof (step_doc_step st tx id) as Hstep.
    inversion Hstep as [Heq|l Hc Hz Hl Heq|r ? ? ? ? ? Heq|Hc Hex Heq];
      rewrite <- Heq in Hchg; simpl in Hchg; try done.
    + left. exists l. repeat split; try done.
      destruct (is_revert _) eqn:Hr; [|done].
      apply createDocument_revert_iff in Hr as [?|?]; [lia|done].
    + right. done.
  - intros txs1 txs2 Hon Hoff. rewrite run_app.
    pose proof (run_deactivated txs1 st id Hon Hoff) as Hex.
    by destruct (run_revoked txs2 _ id Hex Hoff) as (_ & ? & _).
  - intros txs Hex Hoff. by destruct (run_revoked txs st id Hex Hoff) as (_ & ? & _).
  - intros msg l txs msg' l' Hnow Hok.
    apply createDocument_existing.
    by rewrite (createDocument_timestamp st msg id l Hok).
Qed.

(** ** The verify route *)

Lemma filter_all_length {A} (P : A → Prop) `{!∀ x, Decision (P x)} (l : list A) :
  length (filter P l) = length l ↔ Forall P l.
Proof.
  induction l as [|x l IH]; [by split|].
  rewrite Forall_cons. destruct (decide (P x)) as [Hx|Hx].
  - rewrite filter_cons_True by done; simpl. rewrite <- IH. split; [|lia].
    intros [=]; auto.
  - rewrite filter_cons_False by done; simpl. pose proof (length_filter P l).
    split; [lia | tauto].
Qed.

(** C8: in the verify flow [isFullyValid] is [true] exactly when the number
    of per-signer results with [isValid = true] equals the number of
    required signers, for every list of signers and every outcome of the
    per-signer reads.  A read that fails, as a failure reply or as a thrown
    error, gives an entry of the result list that is not valid and carries
    the error; the list has one entry per signer, in order. *)
Theorem verify_aggregation (signers : list address)
    (verifySignature
       : address → SignatureRoutes.awaited
                     (DocumentSignatureService.reply DocumentSignatureService.Verification)) :
  ∃ body,
    SignatureRoutes.verify_handler (DocumentSignatureService.success signers)
                                   verifySignature
      = SignatureRoutes.verify_200 body
    ∧ SignatureRoutes.verify_totalSigners body = length signers
    ∧ length (SignatureRoutes.verificationResults body) = length signers
    ∧ SignatureRoutes.validSignatures body
        = length (filter (λ r, SignatureRoutes.entry_isValid r = true)
                         (SignatureRoutes.verificationResults body))
    ∧ (SignatureRoutes.isFullyValid body = true ↔
         SignatureRoutes.validSignatures body = SignatureRoutes.verify_totalSigners body)
    ∧ (SignatureRoutes.isFullyValid body = true ↔
         Forall (λ r, SignatureRoutes.entry_isValid r = true)
                (SignatureRoutes.verificationResults body))
    ∧ (∀ i signer, signers !! i = Some signer →
         SignatureRoutes.verificationResults body !! i =
           Some match verifySignature signer with
                | SignatureRoutes.resolved (DocumentSignatureService.success v) =>
                    SignatureRoutes.mkEntry signer
                      (DocumentSignatureService.isValid v)
                      (DocumentSignatureService.signedAt v)
                      (DocumentSignatureService.documentActive v) None
                | SignatureRoutes.resolved (DocumentSignatureService.failure e) =>
                    SignatureRoutes.mkEntry signer false 0 false (Some e)
                | SignatureRoutes.rejected e =>
                    SignatureRoutes.mkEntry signer false 0 false (Some e)
                end).
Proof.
  eexists. split; [reflexivity|]. simpl.
  split; [done|]. split; [apply length_fmap|]. split; [done|].
  split; [apply bool_decide_eq_true|].
  split.
  - rewrite bool_decide_eq_true, <- filter_all_length. by rewrite length_fmap.
  - intros i signer Hi. by rewrite list_lookup_fmap, Hi.
Qed.

(** The service's [verifySignature] on an existing document. *)
Lemma verifySignature_existing (st : Storage) (id : string) (signer : address) :
  0 < timestamp (doc st id) →
  sig_timestamp (sig (doc st id) signer) < 2 ^ 53 →
  DocumentSignatureService.verifySignature id signer st
    = DocumentSignatureService.success
        (DocumentSignatureService.mkVerification
           (signed (sig (doc st id) signer))
           (sig_timestamp (sig (doc st id) signer))
           (isActive (doc st id))).
Proof.
  intros Hex Hsmall. unfold DocumentSignatureService.verifySignature.
  rewrite call_verifyDocumentSignature.
  destruct (N.eqb_spec (timestamp (doc st id)) 0); [lia|].
  unfold DocumentSignatureService.toNumber.
  by apply N.ltb_lt in Hsmall as ->.
Qed.



(** ** The sign route *)

(** The service signs as its wallet: its [signDocument] is the contract's
    [signDocument] with the wallet as [msg.sender]. *)
Lemma service_signDocument_storage (cfg : DocumentSignatureService.config)
    (now : uint256) (h r : string) (st : Storage) :
  (DocumentSignatureService.signDocument cfg now h r st).2
    = transact (signDocument (mkMsg (DocumentSignatureService.wallet cfg) now) h r) st.
Proof.
  unfold DocumentSignatureService.signDocument, transact.
  by destruct (send _ st) as [[]|].
Qed.

(** Whatever the route does to the storage, it does through that call. *)
Lemma sign_route_storage (cfg : DocumentSignatureService.config) (now : uint256)
    (h : string) (user : address) (u : SignatureRoutes.upload) (st : Storage) :
  (SignatureRoutes.sign cfg now h user u st).2 = st
  ∨ (SignatureRoutes.sign cfg now h user u st).2
      = transact (signDocument (mkMsg (DocumentSignatureService.wallet cfg) now) h
                               (SignatureRoutes.ipfsHash_of u)) st.
Proof.
  unfold SignatureRoutes.sign.
  destruct (DocumentSignatureService.getRequiredSigners h st); [|by left].
  destruct (negb _); [by left|].
  pose proof (service_signDocument_storage cfg now h (SignatureRoutes.ipfsHash_of u) st)
    as Hsvc.
  destruct (DocumentSignatureService.getSignatureStatus h user st) as [[[] ? ?]|];
    try (by left);
    destruct (DocumentSignatureService.signDocument _ _ _ _ _) as [[] ?];
    simpl in *; by right.
Qed.

(** A signature record changes only for the sender of the transaction. *)
Lemma signDocument_other_signatures (st : Storage) (msg : Msg) (h r : string)
    (id : string) (a : address) :
  a ≠ sender msg →
  sig (doc (transact (signDocument msg h r) st) id) a = sig (doc st id) a.
Proof.
  intros Hne. pose proof (step_doc_step st (msg, SignDocument h r) id) as Hstep.
  unfold step in Hstep; simpl in Hstep.
  inversion Hstep; try done.
  by apply sig_set_signature_ne.
Qed.

(** The route never changes the signature record of the authenticated user
    unless that user is the service's own wallet. *)
Lemma sign_route_leaves_user_unsigned (cfg : DocumentSignatureService.config)
    (now : uint256) (h : string) (user : address) (u : SignatureRoutes.upload)
    (st : Storage) (id : string) :
  user ≠ DocumentSignatureService.wallet cfg →
  sig (doc (SignatureRoutes.sign cfg now h user u st).2 id) user
    = sig (doc st id) user.
Proof.
  intros Hne. destruct (sign_route_storage cfg now h user u st) as [->| ->]; [done|].
  by apply signDocument_other_signatures.
Qed.

(** C3, as the code has it: [alice] is authenticated and is a required
    signer of "H", and the service holds the key of [backend].  When
    [backend] is not a required signer the route's ledger call reverts as
    not authorized and the route answers 500, with nothing recorded.  When
    [backend] is a required signer too, the route answers 200 naming
    [alice] as the signer, while the ledger records the signature of
    [backend] and [alice] stays unsigned. *)
Theorem sign_route_records_service_wallet :
  SignatureRoutes.sign (DocumentSignatureService.mkConfig Sample.backend) 1001 "H"
      Sample.alice SignatureRoutes.no_metadata Sample.created
    = (SignatureRoutes.sign_500 "Not authorized to sign this document", Sample.created)
  ∧ (SignatureRoutes.sign (DocumentSignatureService.mkConfig Sample.backend) 1001 "H"
       Sample.alice (SignatureRoutes.uploaded "Qm1") Sample.created_with_backend).1
    = SignatureRoutes.sign_200
        (SignatureRoutes.mkSignBody Sample.alice (Some "Qm1") false 1 2)
  ∧ call (getSignature "H" Sample.alice)
      (SignatureRoutes.sign (DocumentSignatureService.mkConfig Sample.backend) 1001 "H"
         Sample.alice (SignatureRoutes.uploaded "Qm1") Sample.created_with_backend).2
    = Ok (false, 0, "")
  ∧ call (getSignature "H" Sample.backend)
      (SignatureRoutes.sign (DocumentSignatureService.mkConfig Sample.backend) 1001 "H"
         Sample.alice (SignatureRoutes.uploaded "Qm1") Sample.created_with_backend).2
    = Ok (true, 1001, "Qm1").
Proof. vm_compute. done. Qed.

(** ** The lifecycle on the sample document *)

Example scenario_two_signers :
  call (isFullySigned "H") Sample.created = Ok false
  ∧ call (isFullySigned "H") Sample.alice_signed = Ok false
  ∧ call (isFullySigned "H") Sample.both_signed = Ok true
  ∧ call (getSignature "H" Sample.alice) Sample.created = Ok (false, 0, "")
  ∧ call (getSignature "H" Sample.alice) Sample.alice_signed = Ok (true, 1001, "Qm1")
  ∧ call (getUserDocuments Sample.deployer) Sample.both_signed = Ok ["H"]
  ∧ call (isFullySigned "missing") Sample.both_signed = Revert "Document does not exist"
  ∧ call (verifyDocumentSignature "missing" Sample.alice) Sample.both_signed
      = Ok (false, 0, false).
Proof. vm_compute. done. Qed.

Example scenario_stranger_cannot_sign :
  send (signDocument (mkMsg Sample.carol 1001) "H" "") Sample.created
    = Revert "Not authorized to sign this document"
  ∧ step Sample.created (mkMsg Sample.carol 1001, SignDocument "H" "") = Sample.created.
Proof. vm_compute. done. Qed.

Example scenario_progress :
  DocumentSignatureService.getSigningProgress "H" Sample.alice_signed
    = DocumentSignatureService.success
        (DocumentSignatureService.mkProgress 2 1
           [(Sample.alice,
             DocumentSignatureService.success
               (DocumentSignatureService.mkSignatureStatus true 1001 "Qm1"));
            (Sample.bob,
             DocumentSignatureService.success
               (DocumentSignatureService.mkSignatureStatus false 0 ""))]).
Proof. vm_compute. done. Qed.

(** When the service holds the signer's own key the route records that signer. *)
Example scenario_sign_route_own_key :
  call (getSignature "H" Sample.alice)
    (SignatureRoutes.sign (DocumentSignatureService.mkConfig Sample.alice) 1001 "H"
       Sample.alice (SignatureRoutes.uploaded "Qm1") Sample.created).2
    = Ok (true, 1001, "Qm1").
Proof. vm_compute. done. Qed.

(** * Further properties of the ledger *)

(** ** Signature records over traces *)

Lemma run_snoc (st : Storage) (txs : list (Msg * Call)) (tx : Msg * Call) :
  run st (txs ++ [tx]) = step (run st txs) tx.
Proof. by rewrite run_app. Qed.

(** A record that is signed is never written again. *)
Lemma step_signed_stable (st : Storage) (tx : Msg * Call) (id : string) (a : address) :
  signed (sig (doc st id) a) = true →
  sig (doc (step st tx) id) a = sig (doc st id) a.
Proof.
  intros Hs. destruct (step_doc_step st tx id) as [|l ? ? ?|r ? ? ? ? Hnot|]; try done.
  apply sig_set_signature_ne. intros <-. congruence.
Qed.

Lemma run_signed_stable (txs : list (Msg * Call)) (st : Storage) (id : string)
    (a : address) :
  signed (sig (doc st id) a) = true →
  sig (doc (run st txs) id) a = sig (doc st id) a.
Proof.
  revert st. induction txs as [|tx txs IH]; intros st Hs; [done|].
  rewrite run_cons, IH; rewrite step_signed_stable; done.
Qed.

(** X1: Once a signer has signed, the signature reads the same after any
    sequence of transactions: same flag, same signing time, same metadata
    reference.  Signing again, revoking the document or creating other
    documents does not touch it. *)
Theorem signature_is_permanent (st : Storage) (txs : list (Msg * Call))
    (id : string) (a : address) (t : uint256) (r : string) :
  call (getSignature id a) st = Ok (true, t, r) →
  call (getSignature id a) (run st txs) = Ok (true, t, r).
Proof.
  rewrite !call_getSignature.
  destruct (N.ltb_spec 0 (timestamp (doc st id))) as [Hex|]; simpl; [|done].
  intros [= Hs Ht Hr].
  destruct (run_existing txs st id Hex) as (Hts & _).
  assert (Hlt : (0 <? timestamp (doc (run st txs) id)) = true)
    by (apply N.ltb_lt; lia).
  rewrite Hlt; simpl. rewrite (run_signed_stable txs st id a Hs).
  by rewrite Hs, Ht, Hr.
Qed.

(** Every record of a reachable storage is blank or is the signed record of
    a declared signer of an existing document. *)
Lemma reachable_signatures (st : Storage) :
  Trace.reachable st →
  ∀ id a,
    sig (doc st id) a = zero_Signature
    ∨ (signed (sig (doc st id) a) = true
       ∧ a ∈ signers (doc st id)
       ∧ 0 < timestamp (doc st id)).
Proof.
  intros [txs ->]. induction txs as [|tx txs IH] using rev_ind; intros id a.
  - left. unfold run, doc, sig; simpl. by rewrite !lookup_total_empty.
  - rewrite run_snoc. set (st := run empty_Storage txs) in *.
    destruct (step_doc_step st tx id) as [|l Hc Hz Hl|r Hc Hex Hact Hin Hnot|Hc Hex].
    + apply IH.
    + destruct (IH id a) as [Hzero|(_ & _ & Hex)]; [|lia].
      left. unfold sig in *; simpl. exact Hzero.
    + destruct (decide (a = sender tx.1)) as [->|Hne].
      * right. rewrite sig_set_signature_eq. by simpl.
      * rewrite sig_set_signature_ne by done. apply IH.
    + apply IH.
Qed.

(** X2: In a reachable storage only declared signers of an existing document
    have a signed record: nobody outside the signers sequence ever reads as
    signed. *)
Theorem signed_only_declared (st : Storage) (id : string) (a : address)
    (t : uint256) (r : string) :
  Trace.reachable st →
  call (getSignature id a) st = Ok (true, t, r) →
  a ∈ signers (doc st id)
  ∧ call (verifyDocumentSignature id a) st = Ok (true, t, isActive (doc st id)).
Proof.
  intros Hreach. rewrite call_getSignature, call_verifyDocumentSignature.
  destruct (N.ltb_spec 0 (timestamp (doc st id))) as [Hex|]; simpl; [|done].
  intros [= Hs Ht Hr].
  destruct (reachable_signatures st Hreach id a) as [Hz|(_ & Hin & _)].
  - rewrite Hz in Hs. done.
  - split; [done|]. destruct (N.eqb_spec (timestamp (doc st id)) 0); [lia|].
    by rewrite Hs, Ht.
Qed.

Lemma signed_only_declared_witness :
  Sample.alice ∈ signers (doc Sample.alice_signed "H")
  ∧ call (verifyDocumentSignature "H" Sample.alice) Sample.alice_signed
      = Ok (true, 1001, isActive (doc Sample.alice_signed "H")).
Proof.
  refine (signed_only_declared Sample.alice_signed "H" Sample.alice
            1001 "Qm1" _ _).
  - by exists [(mkMsg Sample.deployer 1000,
                CreateDocument "H" [Sample.alice; Sample.bob]);
               (mkMsg Sample.alice 1001, SignDocument "H" "Qm1")].
  - vm_compute. reflexivity.
Defined.

(** X3: In a reachable storage, for an existing document, the record of anyone
    who has not signed, a declared signer before signing as well as an
    address that was never required, reads as the zero triple. *)
Theorem unsigned_reads_zero (st : Storage) (id : string) (a : address) :
  Trace.reachable st →
  0 < timestamp (doc st id) →
  (signed (sig (doc st id) a) = false →
     call (getSignature id a) st = Ok (false, 0, ""))
  ∧ (a ∉ signers (doc st id) →
       call (getSignature id a) st = Ok (false, 0, "")).
Proof.
  intros Hreach Hex%N.ltb_lt. rewrite call_getSignature, Hex; simpl.
  destruct (reachable_signatures st Hreach id a) as [Hz|(Hs & Hin & _)].
  - by rewrite Hz.
  - split; [congruence | done].
Qed.

Lemma unsigned_reads_zero_witness :
  call (getSignature "H" Sample.carol) Sample.both_signed = Ok (false, 0, "").
Proof.
  refine (proj2 (unsigned_reads_zero Sample.both_signed "H" Sample.carol _ _) _).
  - by exists [(mkMsg Sample.deployer 1000,
                CreateDocument "H" [Sample.alice; Sample.bob]);
               (mkMsg Sample.alice 1001, SignDocument "H" "Qm1");
               (mkMsg Sample.bob 1002, SignDocument "H" "")].
  - vm_compute. reflexivity.
  - vm_compute. intros H. apply elem_of_cons in H as [H|H]; [done|].
    apply elem_of_cons in H as [H|H]; [done|]. by apply elem_of_nil in H.
Defined.

Lemma signature_is_permanent_witness :
  call (getSignature "H" Sample.alice) Sample.revoked = Ok (true, 1001, "Qm1").
Proof.
  apply (signature_is_permanent Sample.alice_signed
           [(mkMsg Sample.bob 1002, SignDocument "H" "");
            (mkMsg Sample.carol 1003, RevokeDocument "H")]
           "H" Sample.alice 1001 "Qm1").
  vm_compute. reflexivity.
Defined.

(** ** Documents over traces *)

(** X4: The signers sequence and the creation time of an existing document are
    fixed: no later transaction, by anyone, changes what
    [getDocumentSigners] returns. *)
Theorem signers_are_fixed (st : Storage) (txs : list (Msg * Call)) (id : string)
    (l : list address) :
  call (getDocumentSigners id) st = Ok l →
  call (getDocumentSigners id) (run st txs) = Ok l
  ∧ timestamp (doc (run st txs) id) = timestamp (doc st id).
Proof.
  rewrite !call_getDocumentSigners.
  destruct (N.ltb_spec 0 (timestamp (doc st id))) as [Hex|]; simpl; [|done].
  intros [= <-]. destruct (run_existing txs st id Hex) as (Ht & Hs & _).
  rewrite Ht, Hs. by apply N.ltb_lt in Hex as ->.
Qed.

Lemma signers_are_fixed_witness :
  call (getDocumentSigners "H") Sample.revoked = Ok [Sample.alice; Sample.bob].
Proof.
  refine (proj1 (signers_are_fixed Sample.created
           [(mkMsg Sample.alice 1001, SignDocument "H" "Qm1");
            (mkMsg Sample.bob 1002, SignDocument "H" "");
            (mkMsg Sample.carol 1003, RevokeDocument "H")]
           "H" [Sample.alice; Sample.bob] _)).
  vm_compute. reflexivity.
Defined.

(** Every existing document of a reachable storage has at least one signer
    and carries its own identifier. *)
Lemma reachable_documents (st : Storage) :
  Trace.reachable st →
  ∀ id, 0 < timestamp (doc st id) →
    signers (doc st id) ≠ [] ∧ documentHash (doc st id) = id.
Proof.
  intros [txs ->]. induction txs as [|tx txs IH] using rev_ind; intros id.
  - unfold run, doc; simpl. rewrite lookup_total_empty; simpl. lia.
  - rewrite run_snoc. set (st := run empty_Storage txs) in *.
    destruct (step_doc_step st tx id) as [|l Hc Hz Hl|r Hc Hex Hact Hin Hnot|Hc Hex];
      simpl; auto.
Qed.

(** X5: In a reachable storage [getDocumentSigners] never returns an empty
    list: a document that exists was created with at least one signer. *)
Theorem existing_document_has_signers (st : Storage) (id : string)
    (l : list address) :
  Trace.reachable st →
  call (getDocumentSigners id) st = Ok l →
  l ≠ [] ∧ documentHash (doc st id) = id.
Proof.
  intros Hreach. rewrite call_getDocumentSigners.
  destruct (N.ltb_spec 0 (timestamp (doc st id))) as [Hex|]; simpl; [|done].
  intros [= <-]. by apply reachable_documents.
Qed.

Lemma existing_document_has_signers_witness :
  [Sample.alice; Sample.bob] ≠ [] ∧ documentHash (doc Sample.created "H") = "H".
Proof.
  apply (existing_document_has_signers Sample.created "H").
  - by exists [(mkMsg Sample.deployer 1000,
                CreateDocument "H" [Sample.alice; Sample.bob])].
  - vm_compute. reflexivity.
Defined.

(** ** Completion over traces *)

(** X6: Once [isFullySigned] has returned [true] it returns [true] after every
    further sequence of transactions, a revocation included: completion
    does not look at the active flag. *)
Theorem completion_is_permanent (st : Storage) (txs : list (Msg * Call))
    (id : string) :
  call (isFullySigned id) st = Ok true →
  call (isFullySigned id) (run st txs) = Ok true.
Proof.
  rewrite !call_isFullySigned.
  destruct (N.ltb_spec 0 (timestamp (doc st id))) as [Hex|]; simpl; [|done].
  intros [= Hall]. destruct (run_existing txs st id Hex) as (Ht & Hs & _).
  assert (Hlt : (0 <? timestamp (doc (run st txs) id)) = true)
    by (apply N.ltb_lt; lia).
  rewrite Hlt; simpl. f_equal. rewrite Hs.
  apply fully_signed_scan_all. intros s Hin.
  pose proof (proj1 (fully_signed_scan_all (doc st id) _) Hall s Hin) as Hsigned.
  by rewrite run_signed_stable.
Qed.

Lemma completion_is_permanent_witness :
  call (isFullySigned "H") Sample.revoked = Ok true.
Proof.
  apply (completion_is_permanent Sample.both_signed
           [(mkMsg Sample.carol 1003, RevokeDocument "H")] "H").
  vm_compute. reflexivity.
Defined.

(** Signing transactions keep an active document active, and leave every
    declared signer among their senders signed. *)
Lemma sign_txs_signed (order : list (address * uint256 * string)) (st : Storage)
    (id : string) :
  0 < timestamp (doc st id) →
  isActive (doc st id) = true →
  0 < timestamp (doc (run st (Trace.sign_txs id order)) id)
  ∧ isActive (doc (run st (Trace.sign_txs id order)) id) = true
  ∧ signers (doc (run st (Trace.sign_txs id order)) id) = signers (doc st id)
  ∧ ∀ a, a ∈ signers (doc st id) →
      (a ∈ order.*1.*1 ∨ signed (sig (doc st id) a) = true) →
      signed (sig (doc (run st (Trace.sign_txs id order)) id) a) = true.
Proof.
  revert st. induction order as [|[[s t] r] order IH]; intros st Hex Hact.
  - simpl. repeat split; try done. intros a _ [Hin|Hs]; [|done].
    by apply elem_of_nil in Hin.
  - unfold Trace.sign_txs. rewrite fmap_cons, run_cons. simpl.
    set (tx := (mkMsg s t, SignDocument id r)).
    assert (Hstep : 0 < timestamp (doc (step st tx) id)
                    ∧ isActive (doc (step st tx) id) = true
                    ∧ signers (doc (step st tx) id) = signers (doc st id)
                    ∧ (s ∈ signers (doc st id) →
                       signed (sig (doc (step st tx) id) s) = true)
                    ∧ ∀ a, signed (sig (doc st id) a) = true →
                           signed (sig (doc (step st tx) id) a) = true).
    { split; [by destruct (step_existing st tx id Hex) as (-> & _)|].
      split.
      { destruct (step_doc_step st tx id); simpl; try done. }
      split; [by destruct (step_existing st tx id Hex) as (_ & -> & _)|].
      split.
      - intros Hin. unfold step, transact; simpl. rewrite send_signDocument; simpl.
        apply N.ltb_lt in Hex as ->. rewrite Hact; simpl.
        apply authorized_scan_elem_of in Hin as ->; simpl.
        destruct (signed (sig (doc st id) s)) eqn:Hs; [done|].
        rewrite doc_insert_eq. by rewrite sig_set_signature_eq.
      - intros a Hs. by rewrite step_signed_stable. }
    destruct Hstep as (Hex' & Hact' & Hsig' & Hs' & Hkeep).
    destruct (IH (step st tx) Hex' Hact') as (Hex2 & Hact2 & Hsig2 & Hall).
    fold (Trace.sign_txs id order).
    split; [done|]. split; [done|]. split; [congruence|].
    intros a Hin Hor. apply Hall; [by rewrite Hsig'|].
    destruct Hor as [Hor|Hor]; [|right; by apply Hkeep].
    simpl in Hor. apply elem_of_cons in Hor as [->|Hor]; [right; by apply Hs'|by left].
Qed.

(** X7: On an existing, active document, once every declared signer has sent a
    [signDocument], in any order, at any block times, with any metadata
    references, and with any other senders in between, [isFullySigned]
    returns [true]. *)
Theorem all_signers_sign_completes (st : Storage) (id : string)
    (order : list (address * uint256 * string)) :
  0 < timestamp (doc st id) →
  isActive (doc st id) = true →
  (∀ a, a ∈ signers (doc st id) → a ∈ order.*1.*1) →
  call (isFullySigned id) (run st (Trace.sign_txs id order)) = Ok true.
Proof.
  intros Hex Hact Hcover.
  destruct (sign_txs_signed order st id Hex Hact) as (Hex' & _ & Hsig & Hall).
  rewrite call_isFullySigned. apply N.ltb_lt in Hex' as ->; simpl. f_equal.
  apply fully_signed_scan_all. intros s Hin. rewrite Hsig in Hin.
  apply Hall; [done|]. left. by apply Hcover.
Qed.

Lemma all_signers_sign_completes_witness :
  call (isFullySigned "H")
    (run Sample.created
       (Trace.sign_txs "H" [(Sample.bob, 1001, "Qm2"); (Sample.carol, 1002, "");
                            (Sample.alice, 1003, "Qm1")])) = Ok true.
Proof.
  apply all_signers_sign_completes.
  - vm_compute. reflexivity.
  - reflexivity.
  - intros a Ha. vm_compute in Ha. vm_compute.
    apply elem_of_cons in Ha as [->|Ha]; [do 2 apply list_elem_of_further; apply list_elem_of_here|].
    apply elem_of_cons in Ha as [->|Ha]; [apply list_elem_of_here|].
    by apply elem_of_nil in Ha.
Defined.

(** ** The per-caller index *)

(** Only a successful [createDocument] writes [userDocuments]: it appends
    the new identifier to the list of its sender. *)
Lemma step_userDocuments (st : Storage) (tx : Msg * Call) :
  (userDocuments (step st tx) = userDocuments st
   ∧ ∀ id, timestamp (doc (step st tx) id) = timestamp (doc st id))
  ∨ ∃ id l,
      tx.2 = CreateDocument id l
      ∧ timestamp (doc st id) = 0
      ∧ timestamp (doc (step st tx) id) = block_timestamp tx.1
      ∧ userDocuments (step st tx)
          = <[sender tx.1 := (userDocuments st !!! sender tx.1) ++ [id]]>
              (userDocuments st).
Proof.
  assert (Hts : ∀ id, (∀ h l, tx.2 ≠ CreateDocument h l) →
                      timestamp (doc (step st tx) id) = timestamp (doc st id)).
  { intros id Hnc. destruct (step_doc_step st tx id) as [|l Hc| |]; try done.
    by destruct (Hnc _ _ Hc). }
  destruct tx as [msg [h l|h r|h]]; simpl in *.
  - clear Hts. unfold step, transact; simpl. rewrite send_createDocument.
    destruct (N.eqb_spec (timestamp (doc st h)) 0) as [Hz|]; simpl; [|by left].
    destruct (0 <? N.of_nat (length l)); simpl; [|by left].
    right. exists h, l. by rewrite doc_insert_eq.
  - left. split; [|intros id; by apply Hts].
    unfold step, transact; simpl. rewrite send_signDocument.
    repeat (match goal with |- context [if ?b then _ else _] => destruct b end;
            simpl; try done).
  - left. split; [|intros id; by apply Hts].
    unfold step, transact; simpl. rewrite send_revokeDocument.
    by destruct (negb _).
Qed.

Lemma reachable_user_index (st : Storage) :
  Trace.reachable_on_chain st →
  (∀ u id, id ∈ userDocuments st !!! u → 0 < timestamp (doc st id))
  ∧ (∀ u, NoDup (userDocuments st !!! u))
  ∧ (∀ u u' id, id ∈ userDocuments st !!! u → id ∈ userDocuments st !!! u' → u = u')
  ∧ (∀ id, 0 < timestamp (doc st id) → ∃ u, id ∈ userDocuments st !!! u).
Proof.
  intros (txs & Hpos & ->). induction txs as [|tx txs IH] using rev_ind.
  - unfold run; simpl. repeat split.
    + intros u id. rewrite lookup_total_empty. by intros ?%elem_of_nil.
    + intros u. rewrite lookup_total_empty. apply NoDup_nil_2.
    + intros u u' id. rewrite lookup_total_empty. by intros ?%elem_of_nil.
    + intros id. unfold doc; simpl. rewrite lookup_total_empty; simpl. lia.
  - apply Forall_app in Hpos as [Hpos Htx]. apply Forall_inv in Htx.
    destruct (IH Hpos) as (I1 & I2 & I3 & I4). clear IH.
    rewrite run_snoc. set (st := run empty_Storage txs) in *.
    assert (Hkeep : ∀ id, 0 < timestamp (doc st id) →
                          0 < timestamp (doc (step st tx) id)).
    { intros id Hex. by destruct (step_existing st tx id Hex) as (-> & _). }
    destruct (step_userDocuments st tx) as [[-> Hsame]|(id & l & Hc & Hz & Ht & ->)].
    { repeat split; eauto.
      intros id Hex. apply I4. by rewrite <- Hsame. }
    assert (Hfresh : ∀ u, id ∉ userDocuments st !!! u).
    { intros u Hin. apply I1 in Hin. lia. }
    assert (Hread : ∀ u x,
              x ∈ <[sender tx.1 := (userDocuments st !!! sender tx.1) ++ [id]]>
                    (userDocuments st) !!! u ↔
              x ∈ userDocuments st !!! u ∨ (u = sender tx.1 ∧ x = id)).
    { intros u x. destruct (decide (sender tx.1 = u)) as [<-|Hne].
      - rewrite lookup_total_insert_eq, elem_of_app, list_elem_of_singleton. tauto.
      - rewrite lookup_total_insert_ne by done. split; [tauto|].
        intros [?|[-> _]]; done. }
    repeat split.
    + intros u x [Hin|[-> ->]]%Hread; [by apply Hkeep, I1 with u|].
      rewrite Ht. exact Htx.
    + intros u. destruct (decide (sender tx.1 = u)) as [<-|Hne].
      * rewrite lookup_total_insert_eq. apply NoDup_app. split; [apply I2|].
        split; [|apply NoDup_singleton].
        intros x Hx ->%list_elem_of_singleton. by apply (Hfresh (sender tx.1)).
      * rewrite lookup_total_insert_ne by done. apply I2.
    + intros u u' x [Hin|[-> ->]]%Hread [Hin'|[-> Hx]]%Hread; try done.
      * by apply I3 with x.
      * subst x. by destruct (Hfresh u).
      * by destruct (Hfresh u').
    + intros x Hex. destruct (decide (x = id)) as [->|Hne].
      * exists (sender tx.1). apply Hread. by right.
      * destruct (I4 x) as [u Hu].
        { destruct (step_doc_step st tx x) as [|l' Hc' ? ?| |]; simpl in *; try done.
          rewrite Hc in Hc'. by injection Hc' as -> _. }
        exists u. apply Hread. by left.
Qed.

(** X8: With block times positive, in a reachable storage the lists read by
    [getUserDocuments] are sound: every listed identifier is an existing
    document, no list holds an identifier twice, and no identifier is in
    the lists of two callers. *)
Theorem user_index_sound (st : Storage) (u : address) (l : list string) :
  Trace.reachable_on_chain st →
  call (getUserDocuments u) st = Ok l →
  NoDup l
  ∧ ∀ id, id ∈ l →
      0 < timestamp (doc st id)
      ∧ ∀ u' l', call (getUserDocuments u') st = Ok l' → id ∈ l' → u' = u.
Proof.
  intros Hreach. rewrite call_getUserDocuments. intros [= <-].
  destruct (reachable_user_index st Hreach) as (I1 & I2 & I3 & _).
  split; [apply I2|]. intros id Hin. split; [by apply I1 with u|].
  intros u' l'. rewrite call_getUserDocuments. intros [= <-] Hin'.
  by apply I3 with id.
Qed.

Lemma user_index_sound_witness :
  NoDup ["H"]
  ∧ ∀ id, id ∈ ["H"] →
      0 < timestamp (doc Sample.revoked id)
      ∧ ∀ u' l', call (getUserDocuments u') Sample.revoked = Ok l' → id ∈ l' →
                 u' = Sample.deployer.
Proof.
  refine (user_index_sound Sample.revoked Sample.deployer ["H"] _ _).
  - exists [(mkMsg Sample.deployer 1000,
             CreateDocument "H" [Sample.alice; Sample.bob]);
            (mkMsg Sample.alice 1001, SignDocument "H" "Qm1");
            (mkMsg Sample.bob 1002, SignDocument "H" "");
            (mkMsg Sample.carol 1003, RevokeDocument "H")].
    split; [|reflexivity].
    repeat (apply Forall_cons; split; [simpl; lia|]). apply Forall_nil_2.
  - vm_compute. reflexivity.
Defined.

(** X9: With block times positive, every existing document of a reachable
    storage is in the list of some caller, the one that created it. *)
Theorem user_index_complete (st : Storage) (id : string) :
  Trace.reachable_on_chain st →
  0 < timestamp (doc st id) →
  ∃ u l, call (getUserDocuments u) st = Ok l ∧ id ∈ l.
Proof.
  intros Hreach Hex.
  destruct (reachable_user_index st Hreach) as (_ & _ & _ & I4).
  destruct (I4 id Hex) as [u Hu]. exists u, (userDocuments st !!! u).
  by rewrite call_getUserDocuments.
Qed.

Lemma user_index_complete_witness :
  ∃ u l, call (getUserDocuments u) Sample.created = Ok l ∧ "H" ∈ l.
Proof.
  apply user_index_complete.
  - exists [(mkMsg Sample.deployer 1000,
             CreateDocument "H" [Sample.alice; Sample.bob])].
    split; [|reflexivity].
    apply Forall_cons; split; [simpl; lia | apply Forall_nil_2].
  - vm_compute. reflexivity.
Defined.

(** * Further properties of the ledger client and the routes *)

Lemma filter_fmap_pre {A B} (f : A → B) (P : B → Prop) `{!∀ y, Decision (P y)}
    (l : list A) :
  filter P (f <$> l) = f <$> filter (λ x, P (f x)) l.
Proof.
  induction l as [|x l IH]; [done|]. rewrite fmap_cons, !filter_cons.
  destruct (decide (P (f x))); by rewrite IH.
Qed.

Lemma filter_ext_elem {A} (P1 P2 : A → Prop)
    `{!∀ x, Decision (P1 x), !∀ x, Decision (P2 x)} (l : list A) :
  (∀ x, x ∈ l → (P1 x ↔ P2 x)) → filter P1 l = filter P2 l.
Proof.
  induction l as [|x l IH]; intros Hiff; [done|]. rewrite !filter_cons.
  rewrite IH by (intros y Hy; apply Hiff; by apply list_elem_of_further).
  pose proof (Hiff x (list_elem_of_here _ _)).
  destruct (decide (P1 x)), (decide (P2 x)); tauto || done.
Qed.

Lemma filter_none {A} (P : A → Prop) `{!∀ x, Decision (P x)} (l : list A) :
  (∀ x, x ∈ l → ¬ P x) → filter P l = [].
Proof.
  induction l as [|x l IH]; intros Hno; [done|].
  rewrite filter_cons_False by (apply Hno, list_elem_of_here).
  apply IH. intros y Hy. by apply Hno, list_elem_of_further.
Qed.

(** ** Reads of the client on an existing document *)

Section ExistingDocument.
Variables (st : Storage) (id : string).
Hypothesis Hex : 0 < timestamp (doc st id).

Lemma getRequiredSigners_existing :
  DocumentSignatureService.getRequiredSigners id st
    = DocumentSignatureService.success (signers (doc st id)).
Proof.
  unfold DocumentSignatureService.getRequiredSigners.
  rewrite call_getDocumentSigners. by apply N.ltb_lt in Hex as ->.
Qed.

Lemma isDocumentFullySigned_existing :
  DocumentSignatureService.isDocumentFullySigned id st
    = DocumentSignatureService.success
        (fully_signed_scan (doc st id) (signers (doc st id))).
Proof.
  unfold DocumentSignatureService.isDocumentFullySigned.
  rewrite call_isFullySigned. by apply N.ltb_lt in Hex as ->.
Qed.

Lemma getSignatureStatus_existing (a : address) :
  DocumentSignatureService.getSignatureStatus id a st
    = if sig_timestamp (sig (doc st id) a) <? 2 ^ 53
      then DocumentSignatureService.success
             (DocumentSignatureService.mkSignatureStatus
                (signed (sig (doc st id) a))
                (sig_timestamp (sig (doc st id) a))
                (ipfsHash (sig (doc st id) a)))
      else DocumentSignatureService.failure "overflow".
Proof.
  unfold DocumentSignatureService.getSignatureStatus.
  rewrite call_getSignature. apply N.ltb_lt in Hex as ->; simpl.
  unfold DocumentSignatureService.toNumber. by destruct (_ <? _).
Qed.

Lemma counts_as_signed_existing (a : address) :
  DocumentSignatureService.counts_as_signed
    (a, DocumentSignatureService.getSignatureStatus id a st)
    = (sig_timestamp (sig (doc st id) a) <? 2 ^ 53) && signed (sig (doc st id) a).
Proof.
  rewrite getSignatureStatus_existing.
  unfold DocumentSignatureService.counts_as_signed; simpl.
  by destruct (_ <? _).
Qed.

Lemma getSigningProgress_existing :
  DocumentSignatureService.getSigningProgress id st
    = DocumentSignatureService.success
        (DocumentSignatureService.mkProgress
           (length (signers (doc st id)))
           (length (filter
                      (λ a, (sig_timestamp (sig (doc st id) a) <? 2 ^ 53)
                            && signed (sig (doc st id) a) = true)
                      (signers (doc st id))))
           ((λ signer,
               (signer, DocumentSignatureService.getSignatureStatus id signer st))
              <$> signers (doc st id))).
Proof.
  unfold DocumentSignatureService.getSigningProgress.
  rewrite getRequiredSigners_existing. do 2 f_equal.
  rewrite filter_fmap_pre, length_fmap. f_equal.
  apply list_filter_iff. intros a. by rewrite counts_as_signed_existing.
Qed.

End ExistingDocument.

Lemma getRequiredSigners_missing (st : Storage) (id : string) :
  timestamp (doc st id) = 0 →
  DocumentSignatureService.getRequiredSigners id st
    = DocumentSignatureService.failure "Document does not exist".
Proof.
  intros Hz. unfold DocumentSignatureService.getRequiredSigners.
  by rewrite call_getDocumentSigners, Hz.
Qed.

(** ** getSigningProgress *)

(** X11: [getSigningProgress] fails exactly for a missing document.  For an
    existing one it lists the signers in the ledger's order, its total is
    their number and its signed count never exceeds the total; when the
    signing times fit a JavaScript number the count is the number of
    signers whose record is signed, and it reaches the total exactly when
    [isDocumentFullySigned] answers [true]. *)
Theorem signing_progress_counts (st : Storage) (id : string) :
  (timestamp (doc st id) = 0 →
     DocumentSignatureService.getSigningProgress id st
       = DocumentSignatureService.failure "Document does not exist")
  ∧ (0 < timestamp (doc st id) →
       ∃ p, DocumentSignatureService.getSigningProgress id st
              = DocumentSignatureService.success p
         ∧ DocumentSignatureService.totalSigners p = length (signers (doc st id))
         ∧ (DocumentSignatureService.progress_signatures p).*1 = signers (doc st id)
         ∧ (DocumentSignatureService.signedCount p
              ≤ DocumentSignatureService.totalSigners p)%nat
         ∧ ((∀ a, a ∈ signers (doc st id) →
                  sig_timestamp (sig (doc st id) a) < 2 ^ 53) →
            DocumentSignatureService.signedCount p
              = length (filter (λ a, signed (sig (doc st id) a) = true)
                               (signers (doc st id)))
            ∧ (DocumentSignatureService.signedCount p
                 = DocumentSignatureService.totalSigners p
               ↔ DocumentSignatureService.isDocumentFullySigned id st
                   = DocumentSignatureService.success true))).
Proof.
  split.
  - intros Hz. unfold DocumentSignatureService.getSigningProgress.
    by rewrite getRequiredSigners_missing.
  - intros Hex. eexists. split; [by apply getSigningProgress_existing|]. simpl.
    split; [done|].
    split; [by rewrite <- list_fmap_compose, list_fmap_id|].
    split; [apply length_filter|].
    intros Hsmall.
    assert (Heq : filter (λ a, (sig_timestamp (sig (doc st id) a) <? 2 ^ 53)
                               && signed (sig (doc st id) a) = true)
                         (signers (doc st id))
                  = filter (λ a, signed (sig (doc st id) a) = true)
                           (signers (doc st id))).
    { apply filter_ext_elem. intros a Ha.
      by apply Hsmall, N.ltb_lt in Ha as ->. }
    rewrite Heq. split; [done|].
    rewrite isDocumentFullySigned_existing by done.
    rewrite filter_all_length, Forall_forall, <- fully_signed_scan_all.
    split; [by intros ->|by intros [= ->]].
Qed.

(** ** The verify route and completion *)

(** X12: The verify route answers 404 exactly for a missing document.  For an
    existing one whose signing times fit a JavaScript number its
    [isFullyValid] flag is [true] exactly when the ledger's [isFullySigned]
    returns [true], and [validSignatures] is the number of signers whose
    record is signed. *)
Theorem verify_agrees_with_completion (st : Storage) (id : string) :
  (timestamp (doc st id) = 0 →
     SignatureRoutes.verify id st = SignatureRoutes.verify_404)
  ∧ (0 < timestamp (doc st id) →
       (∀ a, a ∈ signers (doc st id) →
             sig_timestamp (sig (doc st id) a) < 2 ^ 53) →
       ∃ body, SignatureRoutes.verify id st = SignatureRoutes.verify_200 body
         ∧ (SignatureRoutes.isFullyValid body = true
              ↔ call (isFullySigned id) st = Ok true)
         ∧ SignatureRoutes.validSignatures body
             = length (filter (λ a, signed (sig (doc st id) a) = true)
                              (signers (doc st id)))
         ∧ SignatureRoutes.verify_totalSigners body = length (signers (doc st id))).
Proof.
  unfold SignatureRoutes.verify. split.
  - intros Hz. by rewrite getRequiredSigners_missing.
  - intros Hex Hsmall. rewrite getRequiredSigners_existing by done.
    eexists. split; [reflexivity|].
    cbn [SignatureRoutes.isFullyValid SignatureRoutes.validSignatures
         SignatureRoutes.verify_totalSigners].
    assert (Hcount :
      length (filter (λ r, SignatureRoutes.entry_isValid r = true)
                ((λ signer, SignatureRoutes.verification_entry signer
                    (SignatureRoutes.resolved
                       (DocumentSignatureService.verifySignature id signer st)))
                   <$> signers (doc st id)))
      = length (filter (λ a, signed (sig (doc st id) a) = true)
                       (signers (doc st id)))).
    { rewrite filter_fmap_pre, length_fmap. f_equal.
      apply filter_ext_elem. intros a Ha.
      by rewrite verifySignature_existing by auto. }
    rewrite Hcount. split; [|done].
    rewrite bool_decide_eq_true, filter_all_length, Forall_forall,
      <- fully_signed_scan_all, call_isFullySigned.
    apply N.ltb_lt in Hex as ->; simpl.
    split; [by intros ->|by intros [= ->]].
Qed.

(** ** The notify route *)

(** X13: The notify route answers 404 for a missing document.  For an existing
    one whose signing times fit a JavaScript number it answers 400 when
    every signer has signed, and otherwise lists the signers that have not
    signed, in the ledger's order. *)
Theorem notify_lists_unsigned (st : Storage) (id : string) :
  (timestamp (doc st id) = 0 →
     SignatureRoutesNotify.notify id st = SignatureRoutesNotify.notify_404)
  ∧ (0 < timestamp (doc st id) →
       (∀ a, a ∈ signers (doc st id) →
             sig_timestamp (sig (doc st id) a) < 2 ^ 53) →
       SignatureRoutesNotify.notify id st
         = if fully_signed_scan (doc st id) (signers (doc st id))
           then SignatureRoutesNotify.notify_400
           else SignatureRoutesNotify.notify_200
                  (filter (λ a, signed (sig (doc st id) a) = false)
                          (signers (doc st id)))).
Proof.
  unfold SignatureRoutesNotify.notify. split.
  - intros Hz. unfold DocumentSignatureService.getSigningProgress.
    by rewrite getRequiredSigners_missing.
  - intros Hex Hsmall. rewrite getSigningProgress_existing by done. simpl.
    rewrite filter_fmap_pre, <- list_fmap_compose, list_fmap_id, length_fmap.
    assert (Heq : filter (λ x, DocumentSignatureService.counts_as_signed
                                 (x, DocumentSignatureService.getSignatureStatus id x st)
                               = false) (signers (doc st id))
                  = filter (λ a, signed (sig (doc st id) a) = false)
                           (signers (doc st id))).
    { apply filter_ext_elem. intros a Ha.
      rewrite counts_as_signed_existing by done.
      by apply Hsmall, N.ltb_lt in Ha as ->. }
    rewrite Heq.
    destruct (fully_signed_scan _ _) eqn:Hfull.
    + rewrite bool_decide_eq_true_2; [done|].
      apply length_zero_iff_nil, filter_none.
      intros a Ha. rewrite (proj1 (fully_signed_scan_all _ _) Hfull a Ha). done.
    + rewrite bool_decide_eq_false_2; [done|].
      intros Hnil%length_zero_iff_nil.
      assert (fully_signed_scan (doc st id) (signers (doc st id)) = true);
        [|congruence].
      apply fully_signed_scan_all. intros a Ha.
      destruct (signed (sig (doc st id) a)) eqn:Hs; [done|].
      by destruct (filter_nil_not_elem_of _ _ a Hnil Hs).
Qed.

(** ** The sign route: guards *)



(** ** The sign route: the ledger call *)





(** X17: Whatever the route answers, it changes no signature record other than
    that of the service's wallet: the record of an authenticated user who
    is not that wallet reads after the request as it did before. *)
Theorem sign_route_touches_wallet_only (cfg : DocumentSignatureService.config)
    (now : uint256) (h : string) (user : address) (u : SignatureRoutes.upload)
    (st : Storage) (id : string) (a : address) :
  a ≠ DocumentSignatureService.wallet cfg →
  sig (doc (SignatureRoutes.sign cfg now h user u st).2 id) a = sig (doc st id) a
  ∧ signers (doc (SignatureRoutes.sign cfg now h user u st).2 id)
      = signers (doc st id)
  ∧ isActive (doc (SignatureRoutes.sign cfg now h user u st).2 id)
      = isActive (doc st id)
  ∧ userDocuments (SignatureRoutes.sign cfg now h user u st).2 = userDocuments st.
Proof.
  intros Hne. destruct (sign_route_storage cfg now h user u st) as [->| ->]; [done|].
  split; [by apply signDocument_other_signatures|].
  set (tx := (mkMsg (DocumentSignatureService.wallet cfg) now,
              SignDocument h (SignatureRoutes.ipfsHash_of u))).
  change (transact _ st) with (step st tx).
  split; [|split].
  - destruct (step_doc_step st tx id) as [|l Hc| |]; done.
  - destruct (step_doc_step st tx id) as [|l Hc| |]; done.
  - destruct (step_userDocuments st tx) as [[-> _]|(? & ? & Hc & _)]; done.
Qed.

Lemma sign_route_touches_wallet_only_witness :
  sig (doc (SignatureRoutes.sign (DocumentSignatureService.mkConfig Sample.backend)
              1001 "H" Sample.alice SignatureRoutes.no_metadata
              Sample.created_with_backend).2 "H") Sample.alice
    = sig (doc Sample.created_with_backend "H") Sample.alice.
Proof.
  refine (proj1 (sign_route_touches_wallet_only
                   (DocumentSignatureService.mkConfig Sample.backend) 1001 "H"
                   Sample.alice SignatureRoutes.no_metadata
                   Sample.created_with_backend "H" Sample.alice _)).
  vm_compute. discriminate.
Defined.

(** ** The client's createDocument *)






(** X20: Through the client a buffer is registered at most once: after a
    successful [createDocument] at a positive block time, every later
    [createDocument] of the client with the same buffer, whatever the
    signers, the wallet and the transactions in between, fails and leaves
    the ledger as it is. *)
Theorem service_create_same_buffer_once
    (lib : DocumentSignatureServiceCreate.Library)
    (cfg cfg' : DocumentSignatureService.config) (now now' : uint256)
    (documentBuffer : string) (requiredSigners requiredSigners' : list string)
    (st : Storage) (txs : list (Msg * Call))
    (receipt : DocumentSignatureServiceCreate.CreateReceipt) :
  0 < now →
  (DocumentSignatureServiceCreate.createDocument lib cfg now documentBuffer
     requiredSigners st).1 = DocumentSignatureService.success receipt →
  ∃ e,
    DocumentSignatureServiceCreate.createDocument lib cfg' now' documentBuffer
        requiredSigners'
        (run (DocumentSignatureServiceCreate.createDocument lib cfg now
                documentBuffer requiredSigners st).2 txs)
      = (DocumentSignatureService.failure e,
         run (DocumentSignatureServiceCreate.createDocument lib cfg now
                documentBuffer requiredSigners st).2 txs).
Proof.
  intros Hnow. unfold DocumentSignatureServiceCreate.createDocument at 1 3 4.
  destruct (DocumentSignatureServiceCreate.validate_signers lib requiredSigners)
    as [l|]; [|done].
  rewrite send_createDocument.
  destruct (timestamp (doc st _) =? 0); simpl; [|done].
  destruct (0 <? N.of_nat (length l)); simpl; [|done]. intros _.
  set (st' := mkStorage _ _).
  assert (Hex : 0 < timestamp
            (doc st' (DocumentSignatureServiceCreate.hashDocument lib documentBuffer)))
    by (unfold st'; by rewrite doc_insert_eq).
  unfold DocumentSignatureServiceCreate.createDocument.
  destruct (DocumentSignatureServiceCreate.validate_signers lib requiredSigners')
    as [l'|e]; [|by exists e].
  rewrite createDocument_existing by done. by eexists.
Qed.

Lemma service_create_same_buffer_once_witness :
  ∃ e,
    DocumentSignatureServiceCreate.createDocument
        (DocumentSignatureServiceCreate.mkLibrary
           (λ buffer, "H") (λ s, DocumentSignatureService.success Sample.alice))
        (DocumentSignatureService.mkConfig Sample.backend) 2000 "contents" ["b"]
        (run (DocumentSignatureServiceCreate.createDocument
                (DocumentSignatureServiceCreate.mkLibrary
                   (λ buffer, "H") (λ s, DocumentSignatureService.success Sample.alice))
                (DocumentSignatureService.mkConfig Sample.backend) 1000 "contents"
                ["a"] empty_Storage).2 [])
      = (DocumentSignatureService.failure e,
         run (DocumentSignatureServiceCreate.createDocument
                (DocumentSignatureServiceCreate.mkLibrary
                   (λ buffer, "H") (λ s, DocumentSignatureService.success Sample.alice))
                (DocumentSignatureService.mkConfig Sample.backend) 1000 "contents"
                ["a"] empty_Storage).2 []).
Proof.
  eapply (service_create_same_buffer_once _ _ _ 1000).
  - lia.
  - reflexivity.
Defined.

(** * Properties of the authentication middleware *)

Lemma split_space_nonempty (s : string) : AuthMiddleware.split_space s ≠ [].
Proof.
  destruct s as [|c s]; simpl; [done|].
  destruct (Ascii.eqb c " "); [done|]. by destruct (AuthMiddleware.split_space s).
Qed.

Lemma split_space_single (s b : string) :
  AuthMiddleware.split_space s = [b] → s = b ∧ AuthMiddleware.has_space b = false.
Proof.
  revert b. induction s as [|c s IH]; intros b; simpl.
  - by intros [= <-].
  - pose proof (split_space_nonempty s) as Hne.
    destruct (Ascii.eqb c " ") eqn:Hc.
    + intros [= _ Hs]. done.
    + destruct (AuthMiddleware.split_space s) as [|p ps] eqn:Hs; [done|].
      intros [= <- ->]. destruct (IH p eq_refl) as [-> Hp].
      simpl. by rewrite Hc.
Qed.

Lemma split_space_pair (s a b : string) :
  AuthMiddleware.split_space s = [a; b] →
  s = a +:+ " " +:+ b
  ∧ AuthMiddleware.has_space a = false
  ∧ AuthMiddleware.has_space b = false.
Proof.
  revert a. induction s as [|c s IH]; intros a; simpl; [done|].
  destruct (Ascii.eqb_spec c " ") as [->|Hc].
  - intros [= <- Hs]. by destruct (split_space_single s b Hs) as [-> ?].
  - destruct (AuthMiddleware.split_space s) as [|p ps] eqn:Hs; [done|].
    intros [= <- ->]. destruct (IH p eq_refl) as (-> & Hp & Hb).
    split; [done|]. split; [|done]. simpl.
    destruct (Ascii.eqb_spec c " "); [done|]. done.
Qed.

Lemma split_space_no_space (b : string) :
  AuthMiddleware.has_space b = false → AuthMiddleware.split_space b = [b].
Proof.
  induction b as [|c b IH]; simpl; [done|].
  destruct (Ascii.eqb c " "); simpl; [done|]. by intros ->%IH.
Qed.

Lemma split_space_app (a rest : string) :
  AuthMiddleware.has_space a = false →
  AuthMiddleware.split_space (a +:+ String " " rest)
    = a :: AuthMiddleware.split_space rest.
Proof.
  induction a as [|c a IH]; simpl; [done|].
  destruct (Ascii.eqb c " "); simpl; [done|]. by intros ->%IH.
Qed.

(** X21: The middleware lets a request through exactly when the Authorization
    header is the word Bearer, one space, and a token without a space that
    [verifyJWT] accepts; [req.user] then carries the address, type and
    issue time of the token's payload.  The optional variant sets a user
    in exactly the same cases, and the same user. *)
Theorem auth_passes_iff (verifyJWT : string → DocumentSignatureService.reply
                                                 AuthMiddleware.Payload)
    (authorization : option string) (user : AuthMiddleware.User) (token : string) :
  (AuthMiddleware.authMiddleware verifyJWT authorization
     = AuthMiddleware.auth_next user token
   ↔ ∃ payload,
       authorization = Some ("Bearer " +:+ token)
       ∧ AuthMiddleware.has_space token = false
       ∧ verifyJWT token = DocumentSignatureService.success payload
       ∧ user = AuthMiddleware.mkUser (AuthMiddleware.payload_address payload)
                                      (AuthMiddleware.payload_type payload)
                                      (AuthMiddleware.payload_iat payload))
  ∧ (AuthMiddleware.optionalAuthMiddleware verifyJWT authorization = Some (user, token)
     ↔ AuthMiddleware.authMiddleware verifyJWT authorization
         = AuthMiddleware.auth_next user token).
Proof.
  split.
  - split.
    + unfold AuthMiddleware.authMiddleware.
      destruct authorization as [[|c h]|]; try done.
      destruct (AuthMiddleware.split_space (String c h))
        as [|scheme [|tok [|? ?]]] eqn:Hsplit; try done.
      destruct (String.eqb_spec scheme "Bearer") as [->|]; [|done].
      destruct (verifyJWT tok) as [payload|] eqn:Hjwt; [|done].
      intros [= <- <-]. apply split_space_pair in Hsplit as (-> & _ & Htok).
      by exists payload.
    + intros (payload & -> & Htok & Hjwt & ->).
      unfold AuthMiddleware.authMiddleware.
      change ("Bearer " +:+ token) with ("Bearer" +:+ String " " token).
      cbn [String.append]. 
      change (String "B" (String "e" (String "a" (String "r" (String "e"
                (String "r" (String " " token)))))))
        with ("Bearer" +:+ String " " token).
      rewrite split_space_app by done.
      rewrite split_space_no_space by done. simpl. by rewrite Hjwt.
  - unfold AuthMiddleware.optionalAuthMiddleware, AuthMiddleware.authMiddleware.
    destruct authorization as [[|c h]|]; try done.
    destruct (AuthMiddleware.split_space (String c h))
      as [|scheme [|tok [|? ?]]]; try done.
    destruct (String.eqb scheme "Bearer"); [|done].
    destruct (verifyJWT tok); [|done].
    split; by intros [= <- <-].
Qed.

Example auth_header_shapes :
  let verifyJWT := λ t, if String.eqb t "good"
                        then DocumentSignatureService.success
                               (AuthMiddleware.mkPayload "0xa1" "wallet_auth" 7)
                        else DocumentSignatureService.failure "jwt malformed" in
  AuthMiddleware.authMiddleware verifyJWT (Some "Bearer good")
    = AuthMiddleware.auth_next (AuthMiddleware.mkUser "0xa1" "wallet_auth" 7) "good"
  ∧ AuthMiddleware.authMiddleware verifyJWT (Some "Bearer  good")
    = AuthMiddleware.auth_401 "Invalid authorization format"
        "Authorization header must be in format: Bearer <token>"
  ∧ AuthMiddleware.authMiddleware verifyJWT (Some "bearer good")
    = AuthMiddleware.auth_401 "Invalid authorization format"
        "Authorization header must be in format: Bearer <token>"
  ∧ AuthMiddleware.authMiddleware verifyJWT (Some "Bearer bad")
    = AuthMiddleware.auth_401 "Invalid or expired token" "jwt malformed"
  ∧ AuthMiddleware.authMiddleware verifyJWT (Some "")
    = AuthMiddleware.auth_401 "Authorization header required"
        "Please provide a valid JWT token in the Authorization header".
Proof. vm_compute. done. Qed.

(** * Properties of the rate limiter *)

Section RateLimiter.
Local Open Scope Z_scope.
Variable opts : RateLimit.options.

(** One request: the timestamps of the identifier that are still inside
    the window decide; they are what the store keeps for it, with the
    arrival time added when the request passes. *)
Lemma rateLimitMiddleware_unfold (identifier : string) (now : Z)
    (store : gmap string (list Z)) :
  let kept := filter (λ t, now - RateLimit.windowMs opts < t)
                     (RateLimit.requests_of store identifier) in
  (RateLimit.rateLimitMiddleware opts identifier now store).1
    = (if bool_decide (RateLimit.maxRequests opts ≤ Z.of_nat (length kept))
       then RateLimit.limited
       else RateLimit.passed
              (Z.max 0 (RateLimit.maxRequests opts - Z.of_nat (length kept + 1))))
  ∧ RateLimit.requests_of
      (RateLimit.rateLimitMiddleware opts identifier now store).2 identifier
    = (if bool_decide (RateLimit.maxRequests opts ≤ Z.of_nat (length kept))
       then kept else kept ++ [now])
  ∧ ∀ other, other ≠ identifier →
      (RateLimit.rateLimitMiddleware opts identifier now store).2 !! other
        = store !! other.
Proof.
  unfold RateLimit.rateLimitMiddleware, RateLimit.requests_of.
  destruct (store !! identifier) as [l|] eqn:Hl; simpl.
  - rewrite lookup_insert_eq; simpl.
    destruct (bool_decide _); simpl.
    + rewrite lookup_insert_eq. split; [done|]. split; [done|].
      intros other Hne. by rewrite lookup_insert_ne.
    + rewrite lookup_insert_eq, length_app. split; [done|]. split; [done|].
      intros other Hne. by rewrite !lookup_insert_ne.
  - rewrite Hl; simpl. destruct (bool_decide _); simpl.
    + rewrite Hl. done.
    + rewrite lookup_insert_eq. split; [done|]. split; [done|].
      intros other Hne. by rewrite lookup_insert_ne.
Qed.

(** X22: A request is refused exactly when the identifier already has
    [maxRequests] passed timestamps in the store inside the window that
    ends now; a refused request is not recorded, a passed one is, and the
    timestamps of other identifiers are not touched. *)
Theorem rate_limit_decision (identifier : string) (now : Z)
    (store : gmap string (list Z)) :
  ((RateLimit.rateLimitMiddleware opts identifier now store).1 = RateLimit.limited
   ↔ RateLimit.maxRequests opts
       ≤ Z.of_nat (length (filter (λ t, now - RateLimit.windowMs opts < t)
                                  (RateLimit.requests_of store identifier))))
  ∧ ((RateLimit.rateLimitMiddleware opts identifier now store).1 = RateLimit.limited →
       RateLimit.requests_of
         (RateLimit.rateLimitMiddleware opts identifier now store).2 identifier
       = filter (λ t, now - RateLimit.windowMs opts < t)
                (RateLimit.requests_of store identifier))
  ∧ ((RateLimit.rateLimitMiddleware opts identifier now store).1 ≠ RateLimit.limited →
       RateLimit.requests_of
         (RateLimit.rateLimitMiddleware opts identifier now store).2 identifier
       = filter (λ t, now - RateLimit.windowMs opts < t)
                (RateLimit.requests_of store identifier) ++ [now])
  ∧ (∀ other, other ≠ identifier →
       RateLimit.requests_of
         (RateLimit.rateLimitMiddleware opts identifier now store).2 other
       = RateLimit.requests_of store other).
Proof.
  destruct (rateLimitMiddleware_unfold identifier now store) as (Hout & Hkept & Hother).
  cbv zeta in *. rewrite Hout, Hkept.
  destruct (bool_decide _) eqn:Hd.
  - apply bool_decide_eq_true in Hd. repeat split; try done.
    intros other Hne. unfold RateLimit.requests_of. by rewrite Hother.
  - apply bool_decide_eq_false in Hd. repeat split; try done.
    intros other Hne. unfold RateLimit.requests_of. by rewrite Hother.
Qed.

End RateLimiter.

Section RateLimiterWindow.
Local Open Scope Z_scope.
Variable opts : RateLimit.options.
Hypothesis Hmax : 0 ≤ RateLimit.maxRequests opts.

Lemma tracks_empty (at_time : Z) : RateLimit.tracks opts ∅ [] at_time.
Proof.
  split; intros identifier; unfold RateLimit.requests_of;
    rewrite lookup_empty; simpl; [lia|done].
Qed.

(** The invariant survives a later clock. *)
Lemma tracks_advance (store : gmap string (list Z)) (hist : list (string * Z))
    (t t' : Z) :
  t ≤ t' → RateLimit.tracks opts store hist t → RateLimit.tracks opts store hist t'.
Proof.
  intros Hle [Hlen Hwin]. split; [done|]. intros identifier.
  rewrite <- (list_filter_filter_l (λ x, t' - RateLimit.windowMs opts < x)
                (λ x, t - RateLimit.windowMs opts < x)) by (intros; lia).
  rewrite Hwin. unfold RateLimit.passed_since.
  rewrite filter_fmap_pre. f_equal. rewrite list_filter_filter.
  apply list_filter_iff. intros [i x]; simpl. split; [tauto|].
  intros [? ?]. repeat split; [lia|done|lia].
Qed.

(** What one request adds to the passed requests. *)
Lemma tracks_step (store : gmap string (list Z)) (hist : list (string * Z))
    (identifier : string) (now : Z) :
  RateLimit.tracks opts store hist now →
  RateLimit.tracks opts
    (RateLimit.rateLimitMiddleware opts identifier now store).2
    (hist ++ match (RateLimit.rateLimitMiddleware opts identifier now store).1 with
             | RateLimit.limited => []
             | RateLimit.passed _ => [(identifier, now)]
             end)
    now.
Proof.
  intros [Hlen Hwin].
  destruct (rateLimitMiddleware_unfold opts identifier now store)
    as (Hout & Hkept & Hother). cbv zeta in *.
  set (kept := filter (λ t, now - RateLimit.windowMs opts < t)
                      (RateLimit.requests_of store identifier)) in *.
  assert (Hkeptlen : Z.of_nat (length kept) ≤ RateLimit.maxRequests opts).
  { pose proof (length_filter (λ t, now - RateLimit.windowMs opts < t)
                  (RateLimit.requests_of store identifier)).
    specialize (Hlen identifier). unfold kept. lia. }
  assert (Hkeptwin : filter (λ t, now - RateLimit.windowMs opts < t) kept = kept).
  { unfold kept. by rewrite list_filter_filter_l. }
  assert (Hrest : ∀ other, other ≠ identifier →
            RateLimit.requests_of
              (RateLimit.rateLimitMiddleware opts identifier now store).2 other
            = RateLimit.requests_of store other).
  { intros other Hne. unfold RateLimit.requests_of. by rewrite Hother. }
  rewrite Hout. destruct (bool_decide _) eqn:Hd.
  - rewrite app_nil_r. split; intros i.
    + destruct (decide (i = identifier)) as [->|Hne];
        [by rewrite Hkept | by rewrite Hrest].
    + destruct (decide (i = identifier)) as [->|Hne].
      * rewrite Hkept, Hkeptwin. apply Hwin.
      * rewrite Hrest by done. apply Hwin.
  - apply bool_decide_eq_false in Hd. split; intros i.
    + destruct (decide (i = identifier)) as [->|Hne]; [|by rewrite Hrest].
      rewrite Hkept, length_app; simpl. lia.
    + unfold RateLimit.passed_since. rewrite filter_app, fmap_app.
      destruct (decide (i = identifier)) as [->|Hne].
      * rewrite Hkept, filter_app, Hkeptwin. f_equal; [apply Hwin|].
        rewrite !filter_cons, !filter_nil; simpl.
        destruct (decide (now - RateLimit.windowMs opts < now)) as [Hin|Hout'].
        -- by rewrite decide_True.
        -- rewrite decide_False; [done|]. by intros [_ ?].
      * rewrite Hrest by done.
        rewrite (filter_cons _ (identifier, now)), decide_False, filter_nil, app_nil_r
          by (simpl; intros [? _]; congruence).
        apply Hwin.
Qed.

Lemma serve_cons (store : gmap string (list Z)) (req : string * Z)
    (rest : list (string * Z)) :
  RateLimit.serve opts store (req :: rest)
    = ((RateLimit.serve opts
          (RateLimit.rateLimitMiddleware opts req.1 req.2 store).2 rest).1,
       match (RateLimit.rateLimitMiddleware opts req.1 req.2 store).1 with
       | RateLimit.limited => []
       | RateLimit.passed _ => [req]
       end
       ++ (RateLimit.serve opts
             (RateLimit.rateLimitMiddleware opts req.1 req.2 store).2 rest).2).
Proof.
  simpl. destruct (RateLimit.rateLimitMiddleware opts req.1 req.2 store) as [out st'].
  simpl. destruct (RateLimit.serve opts st' rest) as [final later]. simpl.
  by destruct out.
Qed.

Lemma serve_app (store : gmap string (list Z)) (r1 r2 : list (string * Z)) :
  (RateLimit.serve opts store (r1 ++ r2)).2
    = (RateLimit.serve opts store r1).2
      ++ (RateLimit.serve opts (RateLimit.serve opts store r1).1 r2).2.
Proof.
  revert store. induction r1 as [|req r1 IH]; intros store; [done|].
  rewrite <- app_comm_cons, !serve_cons. simpl. by rewrite IH, app_assoc.
Qed.

(** The passed requests are among the requests. *)
Lemma serve_passed_elem_of (store : gmap string (list Z)) (reqs : list (string * Z))
    (x : string * Z) :
  x ∈ (RateLimit.serve opts store reqs).2 → x ∈ reqs.
Proof.
  revert store. induction reqs as [|req reqs IH]; intros store.
  - by simpl.
  - rewrite serve_cons; simpl. rewrite elem_of_app, elem_of_cons.
    intros [Hx|Hx]; [|right; by eapply IH].
    destruct (RateLimit.rateLimitMiddleware _ _ _ _).1.
    + by apply elem_of_nil in Hx.
    + apply list_elem_of_singleton in Hx. by left.
Qed.

Lemma nondecreasing_cons (req : string * Z) (reqs : list (string * Z)) :
  RateLimit.nondecreasing (req :: reqs).*2
  ↔ Forall (λ r, req.2 ≤ r.2) reqs ∧ RateLimit.nondecreasing reqs.*2.
Proof.
  change (RateLimit.nondecreasing (req :: reqs).*2)
    with (Forall (λ t', req.2 ≤ t') reqs.*2 ∧ RateLimit.nondecreasing reqs.*2).
  by rewrite Forall_fmap.
Qed.

Lemma serve_tracks (reqs : list (string * Z)) (store : gmap string (list Z))
    (hist : list (string * Z)) (t : Z) :
  RateLimit.tracks opts store hist t →
  Forall (λ req, t ≤ req.2) reqs →
  RateLimit.nondecreasing reqs.*2 →
  RateLimit.tracks opts (RateLimit.serve opts store reqs).1
    (hist ++ (RateLimit.serve opts store reqs).2)
    (default t (last reqs.*2)).
Proof.
  revert store hist t. induction reqs as [|req reqs IH]; intros store hist t Htr Hge Hnd.
  - simpl. by rewrite app_nil_r.
  - destruct req as [i now].
    apply Forall_cons in Hge as [Hreq Hge].
    apply nondecreasing_cons in Hnd as [Hhead Hnd].
    assert (Hlast : default t (last ((i, now) :: reqs).*2) = default now (last reqs.*2)).
    { destruct reqs as [|r' reqs']; [done|].
      rewrite !fmap_cons, last_cons_cons.
      destruct (last (r'.2 :: reqs'.*2)) eqn:Hl; [done|].
      by apply last_None in Hl. }
    rewrite Hlast, serve_cons. cbn [fst snd]. rewrite app_assoc.
    apply IH; [|done|done].
    apply tracks_step. by apply tracks_advance with t.
Qed.

Lemma tracks_bound (store : gmap string (list Z)) (hist : list (string * Z))
    (t : Z) (identifier : string) :
  RateLimit.tracks opts store hist t →
  Z.of_nat (length (RateLimit.passed_since identifier
                      (t - RateLimit.windowMs opts) hist))
    ≤ RateLimit.maxRequests opts.
Proof.
  intros [Hlen Hwin].
  rewrite <- (length_fmap snd), <- Hwin.
  pose proof (length_filter (λ x, t - RateLimit.windowMs opts < x)
                (RateLimit.requests_of store identifier)).
  specialize (Hlen identifier). lia.
Qed.

(** A list of requests in arrival order splits at any instant. *)
Lemma nondecreasing_split (reqs : list (string * Z)) (T : Z) :
  RateLimit.nondecreasing reqs.*2 →
  ∃ r1 r2, reqs = r1 ++ r2
    ∧ Forall (λ req, req.2 ≤ T) r1
    ∧ Forall (λ req, T < req.2) r2
    ∧ RateLimit.nondecreasing r1.*2.
Proof.
  induction reqs as [|req reqs IH]; intros Hnd.
  - by exists [], [].
  - apply nondecreasing_cons in Hnd as [Hhead Hnd].
    destruct (decide (req.2 ≤ T)) as [Hle|Hgt].
    + destruct (IH Hnd) as (r1 & r2 & -> & H1 & H2 & Hnd1).
      exists (req :: r1), r2. split; [done|]. split; [by apply Forall_cons|].
      split; [done|]. apply nondecreasing_cons. split; [|done].
      by apply Forall_app in Hhead as [? _].
    + exists [], (req :: reqs). split; [done|]. split; [done|]. split; [|done].
      apply Forall_cons. split; [lia|].
      eapply Forall_impl; [exact Hhead|]. simpl. intros. lia.
Qed.

(** X23: The sliding window: with requests served in arrival order from an empty
    store, no identifier has more than [maxRequests] passed requests in any
    window of [windowMs] milliseconds, wherever the window ends. *)
Theorem rate_limit_window (requests : list (string * Z)) (identifier : string)
    (T : Z) :
  RateLimit.nondecreasing requests.*2 →
  Z.of_nat (length (filter (λ req, req.1 = identifier
                                   ∧ T - RateLimit.windowMs opts < req.2
                                   ∧ req.2 ≤ T)
                           (RateLimit.serve opts ∅ requests).2))
    ≤ RateLimit.maxRequests opts.
Proof.
  intros Hnd. destruct (nondecreasing_split requests T Hnd)
    as (r1 & r2 & -> & H1 & H2 & Hnd1).
  rewrite serve_app, filter_app, length_app.
  rewrite (filter_none _ (RateLimit.serve opts _ r2).2).
  2:{ intros x Hx%serve_passed_elem_of (_ & _ & Hle).
      rewrite Forall_forall in H2. specialize (H2 x Hx). lia. }
  simpl. rewrite Nat.add_0_r.
  destruct r1 as [|req r1]; [simpl; lia|].
  assert (Hge : Forall (λ r, req.2 ≤ r.2) (req :: r1)).
  { apply Forall_cons. split; [lia|].
    by apply nondecreasing_cons in Hnd1 as [Hh _]. }
  pose proof (serve_tracks (req :: r1) ∅ [] req.2 (tracks_empty _) Hge Hnd1) as Htr.
  rewrite app_nil_l in Htr.
  set (t := default req.2 (last (req :: r1).*2)) in *.
  assert (Ht : t ≤ T).
  { unfold t. destruct (last (req :: r1).*2) as [x|] eqn:Hlast; simpl.
    - apply last_Some_elem_of, list_elem_of_fmap in Hlast as (y & -> & Hy).
      rewrite Forall_forall in H1. by apply H1.
    - apply Forall_inv in H1. done. }
  pose proof (tracks_bound _ _ _ identifier Htr) as Hb.
  unfold RateLimit.passed_since in Hb.
  rewrite <- (list_filter_filter_l
                (λ req0 : string * Z, req0.1 = identifier
                    ∧ T - RateLimit.windowMs opts < req0.2 ∧ req0.2 ≤ T)
                (λ req0 : string * Z, req0.1 = identifier
                    ∧ t - RateLimit.windowMs opts < req0.2))
    by (intros ? (? & ? & ?); split; [done|lia]).
  pose proof (length_filter
                (λ req0 : string * Z, req0.1 = identifier
                    ∧ T - RateLimit.windowMs opts < req0.2 ∧ req0.2 ≤ T)
                (filter (λ req0 : string * Z, req0.1 = identifier
                    ∧ t - RateLimit.windowMs opts < req0.2)
                   (RateLimit.serve opts ∅ (req :: r1)).2)).
  lia.
Qed.

End RateLimiterWindow.

Lemma rate_limit_window_witness :
  (Z.of_nat (length (filter (λ req : string * Z,
                               req.1 = "u" ∧ (1020 - 1000 < req.2 ∧ req.2 ≤ 1020)%Z)
                            (RateLimit.serve (RateLimit.mkOptions 1000 2) ∅
                               [("u", 0); ("u", 10); ("v", 15); ("u", 20);
                                ("u", 1015); ("u", 1020)]%Z).2))
     ≤ 2)%Z.
Proof.
  apply (rate_limit_window (RateLimit.mkOptions 1000 2)).
  - simpl. lia.
  - simpl. repeat split; repeat (apply Forall_cons; split; [lia|]); apply Forall_nil_2.
Defined.

(** Two requests a second: the third inside the window is refused, and a
    refused request does not count against later ones. *)
Example rate_limit_third_refused :
  (RateLimit.serve (RateLimit.mkOptions 1000 2) ∅
     [("u", 0); ("u", 10); ("v", 15); ("u", 20); ("u", 1005); ("u", 1008);
      ("u", 1009)]%Z).2
    = [("u", 0); ("u", 10); ("v", 15); ("u", 1005)]%Z.
Proof. vm_compute. reflexivity. Qed.

(** * Properties of the creation validation *)









(** Two spellings of one address are reported as duplicates, and the
    check of the other elements goes on after an invalid one. *)
Example validation_reports_duplicates :
  let lib := Validation.mkLibrary
               (λ s, Some (Validation.JArray
                             [Validation.JString "0xAB"; Validation.JNumber "7";
                              Validation.JString "0xab"; Validation.JString "zz"]))
               (λ a, bool_decide (a ≠ "zz")) String.length (λ s, None) in
  Validation.signers_errors lib (Some "[...]")
    = ["Invalid signer addresses: Index 1: must be a string, Index 3: invalid Ethereum address format";
       "Duplicate signers found: 0xab"].
Proof. vm_compute. reflexivity. Qed.

(** * Revoking again *)

(** X10: [revokeDocument] has no guard on the active flag: on a document that
    is already revoked it succeeds again, for any caller, emits its event
    again and leaves the storage exactly as it was. *)
Theorem revoke_again_succeeds (st : Storage) (msg msg' : Msg) (id : string) :
  0 < timestamp (doc st id) →
  send (revokeDocument msg' id) (transact (revokeDocument msg id) st)
    = Ok (transact (revokeDocument msg id) st, [DocumentRevoked id (sender msg')]).
Proof.
  intros Hex. pose proof Hex as Hlt%N.ltb_lt.
  unfold transact. rewrite (send_revokeDocument st msg id), Hlt; simpl.
  rewrite send_revokeDocument, doc_insert_eq. cbn [timestamp set_isActive].
  rewrite Hlt. cbn [negb documents userDocuments]. by rewrite insert_insert_eq.
Qed.

Lemma revoke_again_succeeds_witness :
  send (revokeDocument (mkMsg Sample.alice 1009) "H") Sample.revoked
    = Ok (Sample.revoked, [DocumentRevoked "H" Sample.alice]).
Proof.
  apply (revoke_again_succeeds Sample.both_signed (mkMsg Sample.carol 1003)
           (mkMsg Sample.alice 1009) "H").
  vm_compute. reflexivity.
Defined.

(** The notify route on the sample document. *)
Example scenario_notify :
  SignatureRoutesNotify.notify "H" Sample.alice_signed
    = SignatureRoutesNotify.notify_200 [Sample.bob]
  ∧ SignatureRoutesNotify.notify "H" Sample.revoked = SignatureRoutesNotify.notify_400
  ∧ SignatureRoutesNotify.notify "missing" Sample.revoked
    = SignatureRoutesNotify.notify_404.
Proof. vm_compute. done. Qed.
